(** * Roltrap: the escalator controller of [Roltrap-v1.py]

    A shallow embedding of the occupancy logic ([BasicEscalator]), the decay
    thread ([SimpleDecrease]), the sensor thread ([ThreadedLoop]) and the main
    loop, followed by the properties of the design document that the code
    settles.

    Python values are dynamically typed: the fragment used by the program
    (None, int, float, str) is the type [pyval]; a Python float is an IEEE-754
    binary64 number, modelled by [spec_float] at precision 53. *)

From Stdlib Require Import ZArith Bool List String Lia.
From Stdlib Require Import Floats.SpecFloat.
Import ListNotations.

Local Open Scope Z_scope.

(** ** Exceptions and results *)

Inductive exn : Type :=
| ValueError
| TypeError
| OverflowError
| ZeroDivisionError
| UnboundLocalError.

Inductive result (A : Type) : Type :=
| Ok (a : A)
| Raise (e : exn).

Arguments Ok {A} a.
Arguments Raise {A} e.

Definition rbind {A B : Type} (r : result A) (k : A -> result B) : result B :=
  match r with
  | Ok a => k a
  | Raise e => Raise e
  end.

Declare Scope py_scope.
Delimit Scope py_scope with py.

Notation "x <- c ;; k" := (rbind c (fun x => k))
  (at level 61, c at next level, right associativity) : py_scope.

(** ** Binary64 floats *)

Module F64.

Definition prec : Z := 53.
Definition emax : Z := 1024.

Definition sub : spec_float -> spec_float -> spec_float := SFsub prec emax.
Definition mul : spec_float -> spec_float -> spec_float := SFmul prec emax.
Definition div : spec_float -> spec_float -> spec_float := SFdiv prec emax.

(** The float nearest to an integer (ties to even); infinite when the
    integer is beyond the largest float. *)
Definition of_Z (z : Z) : spec_float := binary_normalize prec emax z 0 false.

Definition is_nan (f : spec_float) : bool :=
  match f with S754_nan => true | _ => false end.

Definition is_infinity (f : spec_float) : bool :=
  match f with S754_infinity _ => true | _ => false end.

(** Exact comparison of a float with an integer: Python never rounds the
    integer when it compares an int with a float. *)
Definition compare_Z (f : spec_float) (z : Z) : option comparison :=
  match f with
  | S754_nan => None
  | S754_infinity s => Some (if s then Lt else Gt)
  | S754_zero _ => Some (0 ?= z)
  | S754_finite s m e =>
      let v := cond_Zopp s (Zpos m) in
      Some (if 0 <=? e then (v * 2 ^ e ?= z) else (v ?= z * 2 ^ (- e)))
  end.

End F64.

(** ** Python values and the operators the program applies to them *)

Inductive pyval : Type :=
| PyNone
| PyInt (z : Z)
| PyFloat (f : spec_float)
| PyStr (s : string).

Definition is_None (v : pyval) : bool :=
  match v with PyNone => true | _ => false end.

(** [type(v) is float] *)
Definition type_is_float (v : pyval) : bool :=
  match v with PyFloat _ => true | _ => false end.

(** A value of one of the numeric types, int or float. *)
Definition is_numeric (v : pyval) : bool :=
  match v with PyInt _ | PyFloat _ => true | _ => false end.

(** Conversion of an int operand in mixed arithmetic. *)
Definition int_to_float (z : Z) : result spec_float :=
  match F64.of_Z z with
  | S754_infinity _ => Raise OverflowError
  | f => Ok f
  end.

(** [a - b] *)
Definition py_sub (a b : pyval) : result pyval :=
  match a, b with
  | PyInt x, PyInt y => Ok (PyInt (x - y))
  | PyInt x, PyFloat g => (f <- int_to_float x ;; Ok (PyFloat (F64.sub f g)))%py
  | PyFloat f, PyInt y => (g <- int_to_float y ;; Ok (PyFloat (F64.sub f g)))%py
  | PyFloat f, PyFloat g => Ok (PyFloat (F64.sub f g))
  | _, _ => Raise TypeError
  end.

(** [a * b], on numbers (the program multiplies a float; the repetition of a
    str by an int is left out). *)
Definition py_mul (a b : pyval) : result pyval :=
  match a, b with
  | PyInt x, PyInt y => Ok (PyInt (x * y))
  | PyInt x, PyFloat g => (f <- int_to_float x ;; Ok (PyFloat (F64.mul f g)))%py
  | PyFloat f, PyInt y => (g <- int_to_float y ;; Ok (PyFloat (F64.mul f g)))%py
  | PyFloat f, PyFloat g => Ok (PyFloat (F64.mul f g))
  | _, _ => Raise TypeError
  end.

(** [abs(a)] *)
Definition py_abs (a : pyval) : result pyval :=
  match a with
  | PyInt x => Ok (PyInt (Z.abs x))
  | PyFloat f => Ok (PyFloat (SFabs f))
  | _ => Raise TypeError
  end.

(** Three-way comparison behind [<], [<=], [>], [>=]: [None] when a NaN makes
    the operands unordered. *)
Definition py_compare (a b : pyval) : result (option comparison) :=
  match a, b with
  | PyInt x, PyInt y => Ok (Some (x ?= y))
  | PyInt x, PyFloat g => Ok (option_map CompOpp (F64.compare_Z g x))
  | PyFloat f, PyInt y => Ok (F64.compare_Z f y)
  | PyFloat f, PyFloat g => Ok (SFcompare f g)
  | PyStr s, PyStr t => Ok (Some (String.compare s t))
  | _, _ => Raise TypeError
  end.

Definition py_gt (a b : pyval) : result bool :=
  (c <- py_compare a b ;;
   Ok match c with Some Gt => true | _ => false end)%py.

Definition py_ge (a b : pyval) : result bool :=
  (c <- py_compare a b ;;
   Ok match c with Some (Gt | Eq) => true | _ => false end)%py.

Definition py_le (a b : pyval) : result bool :=
  (c <- py_compare a b ;;
   Ok match c with Some (Lt | Eq) => true | _ => false end)%py.

(** [a / b], true division. Two ints divide to the float nearest to the
    exact quotient. *)
Definition int_true_divide (x y : Z) : result spec_float :=
  match x, y with
  | _, Z0 => Raise ZeroDivisionError
  | Z0, _ => Ok (S754_zero (y <? 0))
  | _, _ =>
      match F64.div (S754_finite (x <? 0) (Z.to_pos (Z.abs x)) 0)
                    (S754_finite (y <? 0) (Z.to_pos (Z.abs y)) 0) with
      | S754_infinity _ => Raise OverflowError
      | q => Ok q
      end
  end.

Definition float_true_divide (f g : spec_float) : result spec_float :=
  match g with
  | S754_zero _ => Raise ZeroDivisionError
  | _ => Ok (F64.div f g)
  end.

Definition py_truediv (a b : pyval) : result pyval :=
  match a, b with
  | PyInt x, PyInt y => (q <- int_true_divide x y ;; Ok (PyFloat q))%py
  | PyInt x, PyFloat g =>
      (f <- int_to_float x ;; q <- float_true_divide f g ;; Ok (PyFloat q))%py
  | PyFloat f, PyInt y =>
      (g <- int_to_float y ;; q <- float_true_divide f g ;; Ok (PyFloat q))%py
  | PyFloat f, PyFloat g => (q <- float_true_divide f g ;; Ok (PyFloat q))%py
  | _, _ => Raise TypeError
  end.

(** *** The built-in [round(number, ndigits)]

    On a float, CPython prints the number in decimal with [ndigits] digits
    after the point, correctly rounded (ties to the even digit), and reads that
    decimal back as the nearest float. *)

(** The integer nearest to [num / den], ties to even, for [0 <= num], [0 < den]. *)
Definition div_half_even (num den : Z) : Z :=
  let q := num / den in
  match 2 * (num mod den) ?= den with
  | Lt => q
  | Gt => q + 1
  | Eq => if Z.even q then q else q + 1
  end.

(** The digits of [m * 2^e] kept by a rounding to [ndigits] decimals, as the
    integer [k] with [k / 10^ndigits] the rounded decimal. *)
Definition decimal_digits (m : positive) (e ndigits : Z) : Z :=
  let num := Zpos m * (if 0 <=? e then 2 ^ e else 1)
                    * (if 0 <=? ndigits then 10 ^ ndigits else 1) in
  let den := (if 0 <=? e then 1 else 2 ^ (- e))
             * (if 0 <=? ndigits then 1 else 10 ^ (- ndigits)) in
  div_half_even num den.

(** The float nearest to the decimal [(-1)^s * k / 10^ndigits]. *)
Definition float_of_decimal (s : bool) (k ndigits : Z) : spec_float :=
  match k with
  | Zpos p =>
      if 0 <=? ndigits
      then F64.div (S754_finite s p 0) (S754_finite false (Z.to_pos (10 ^ ndigits)) 0)
      else binary_normalize F64.prec F64.emax
             (cond_Zopp s (k * 10 ^ (- ndigits))) 0 s
  | _ => S754_zero s
  end.

Definition float_round (x : spec_float) (ndigits : Z) : result spec_float :=
  match x with
  | S754_finite s m e =>
      if ndigits >? 323 then Ok x
      else if ndigits <? -308 then Ok (S754_zero s)
      else
        match float_of_decimal s (decimal_digits m e ndigits) ndigits with
        | S754_infinity _ => Raise OverflowError
        | r => Ok r
        end
  | _ => Ok x
  end.

Definition int_round (x ndigits : Z) : Z :=
  if 0 <=? ndigits then x
  else Z.sgn x * (div_half_even (Z.abs x) (10 ^ (- ndigits)) * 10 ^ (- ndigits)).

Definition py_round (number : pyval) (ndigits : Z) : result pyval :=
  match number with
  | PyInt x => Ok (PyInt (int_round x ndigits))
  | PyFloat f => (r <- float_round f ndigits ;; Ok (PyFloat r))%py
  | _ => Raise TypeError
  end.

(** ** Module constants *)

Definition SPEEDOFSOUND : pyval := PyInt 34300.
Definition TRIG : Z := 23.
Definition ECHO : Z := 24.
Definition DEVIATION : pyval := PyInt 2.
Definition TRAVELTIME : nat := 15.

(** ** class ThreadedLoop: the sensor thread *)

Module ThreadedLoop.

Local Open Scope py_scope.

Definition calculate_pulse_duration (pulseStart pulseEnd : pyval) : result pyval :=
  if is_None pulseStart || is_None pulseEnd
  then Raise ValueError
  else py_sub pulseEnd pulseStart.

Definition calculateDistance (pulseDuration : pyval) : result pyval :=
  if is_None pulseDuration then Raise ValueError
  else
    half <- py_truediv SPEEDOFSOUND (PyInt 2) ;;
    product <- py_mul half pulseDuration ;;
    py_round product 2.

(** The hardware seen from the thread: [echo n] is what the [n]-th read of
    the ECHO pin returns ([true] for 1), [time n] what [time.time()] returns
    once [n] reads have been made. *)
Record gpio : Type := Gpio {
  echo : nat -> bool;
  time : nat -> spec_float
}.

(** The thread: its attribute, the two locals of [run] (unbound until first
    assigned, and kept from one turn to the next), the number of reads of
    ECHO made so far and the levels written to TRIG. *)
Record t : Type := Build {
  _current_distance : pyval;
  pulse_start : option pyval;
  pulse_end : option pyval;
  reads : nat;
  trig_out : list bool
}.

Definition __init__ : t :=
  {| _current_distance := PyNone; pulse_start := None; pulse_end := None;
     reads := O; trig_out := [] |}.

Definition current_distance (self : t) : pyval := _current_distance self.

Definition makePulse (self : t) : t :=
  Build (_current_distance self) (pulse_start self) (pulse_end self)
        (reads self) (trig_out self ++ [false; true; false]).

Section Hardware.

Variable hw : gpio.

(** [while (GPIO.input(ECHO) == level): stamp = time.time()], from read
    number [n]. The loop has no exit but the pin changing level: [None]
    when it is still turning after [fuel] reads. *)
Fixpoint poll (level : bool) (fuel n : nat) (stamp : option pyval)
  : option (nat * option pyval) :=
  match fuel with
  | O => None
  | S fuel' =>
      if Bool.eqb (echo hw n) level
      then poll level fuel' (S n) (Some (PyFloat (time hw (S n))))
      else Some (S n, stamp)
  end.

(** Reading a local that was never assigned. *)
Definition load (x : option pyval) : result pyval :=
  match x with
  | Some v => Ok v
  | None => Raise UnboundLocalError
  end.

(** One turn of the [while] loop of [run], after its test: [None] when
    one of the two polling loops is still turning after [fuel] reads. *)
Definition iteration (fuel : nat) (self : t) : option (result t) :=
  let self := makePulse self in
  match poll false fuel (reads self) (pulse_start self) with
  | None => None
  | Some (n1, ps) =>
      match poll true fuel n1 (pulse_end self) with
      | None => None
      | Some (n2, pe) =>
          Some (a <- load ps ;;
                b <- load pe ;;
                duration <- calculate_pulse_duration a b ;;
                distance <- calculateDistance duration ;;
                Ok (Build distance ps pe n2 (trig_out self)))
      end
  end.

(** [run]: turns of the loop, each after a look at the stop event that finds
    it clear. [is_set k] is what the [k]-th look returns. An exception ends
    the thread. [None] when the loop is still turning after [turns] looks, or
    when a polling loop is. *)
Fixpoint run (is_set : nat -> bool) (turns fuel k : nat) (self : t)
  : option (result t) :=
  match turns with
  | O => None
  | S turns' =>
      if is_set k then Some (Ok self)
      else
        match iteration fuel self with
        | None => None
        | Some (Raise e) => Some (Raise e)
        | Some (Ok self') => run is_set turns' fuel (S k) self'
        end
  end.

End Hardware.

End ThreadedLoop.

(** ** class BasicEscalator *)

Module BasicEscalator.

Definition RUNNING : string := "Running".
Definition STOPPED : string := "Stopped".

(** The instance attributes. *)
Record t : Type := Build {
  _status : pyval;
  _onEscalator : Z;
  _lastMeasurement : pyval
}.

(** A method runs on the object, may update it, and either returns or
    raises; the object survives a raise as it was at that point. *)
Definition method (A : Type) : Type := t -> result A * t.

Definition ret {A : Type} (a : A) : method A := fun self => (Ok a, self).

Definition raise {A : Type} (e : exn) : method A := fun self => (Raise e, self).

Definition bind {A B : Type} (c : method A) (k : A -> method B) : method B :=
  fun self =>
    match c self with
    | (Ok a, self') => k a self'
    | (Raise e, self') => (Raise e, self')
    end.

(** Evaluation of an expression that may raise. *)
Definition eval {A : Type} (r : result A) : method A := fun self => (r, self).

Definition get : method t := fun self => (Ok self, self).

Definition set_onEscalator (n : Z) : method unit :=
  fun self => (Ok tt, Build (_status self) n (_lastMeasurement self)).

Definition set_lastMeasurement (v : pyval) : method unit :=
  fun self => (Ok tt, Build (_status self) (_onEscalator self) v).

Declare Scope method_scope.
Delimit Scope method_scope with method.

Notation "x <- c ;; k" := (bind c (fun x => k))
  (at level 61, c at next level, right associativity) : method_scope.
Notation "c ;; k" := (bind c (fun _ => k))
  (at level 61, right associativity) : method_scope.

Local Open Scope method_scope.

Definition __init__ : t :=
  {| _status := PyNone; _onEscalator := 0; _lastMeasurement := PyInt 0 |}.

Definition setLastMeasurement (measurement : pyval) : method unit :=
  if negb (type_is_float measurement) || is_None measurement
  then raise ValueError
  else set_lastMeasurement measurement.

Definition escalatorCount (self : t) : Z := _onEscalator self.

Definition status (self : t) : string :=
  if escalatorCount self >? 0 then RUNNING else STOPPED.

Definition decreaseCount (decreaseFactor : Z) : method unit :=
  self <- get ;;
  set_onEscalator (_onEscalator self - decreaseFactor).

(** The call [decreaseCount()] takes the default argument. *)
Definition decreaseCount_default : method unit := decreaseCount 1.

Definition compareAndIncrease (measurement : pyval) : method unit :=
  if negb (is_None measurement) then
    self <- get ;;
    d <- eval (py_sub (_lastMeasurement self) measurement) ;;
    a <- eval (py_abs d) ;;
    far <- eval (py_ge a DEVIATION) ;;
    (* [and] evaluates its right operand only when the left one holds *)
    cond <- (if far
             then (g <- eval (py_gt measurement (_lastMeasurement self)) ;;
                   ret (negb g))
             else ret false) ;;
    if cond then set_onEscalator (_onEscalator self + 1) else ret tt
  else ret tt.

End BasicEscalator.

(** ** class SimpleDecrease: the decay thread *)

Module SimpleDecrease.

Import BasicEscalator.

(** [for _ in range(n): if stop is set: break; time.sleep(1)].
    [is_set k] is what the [k]-th look at the stop event returns; the
    result is the number of looks so far and the seconds slept. *)
Fixpoint wait (is_set : nat -> bool) (k n : nat) : nat * nat :=
  match n with
  | O => (k, O)
  | S n' =>
      if is_set k then (S k, O)
      else let (k', slept) := wait is_set (S k) n' in (k', S slept)
  end.

(** One turn of the [while] loop of [run], after its test: the decrease and
    the wait are both under the guard on the count. *)
Definition iteration (is_set : nat -> bool) (k : nat) (basicEscObj : t)
  : t * (nat * nat) :=
  if escalatorCount basicEscObj >=? 0 then
    let basicEscObj' := snd (decreaseCount (escalatorCount basicEscObj) basicEscObj) in
    (basicEscObj', wait is_set k TRAVELTIME)
  else (basicEscObj, (k, O)).

(** [run]: turns of the loop, each after a look at the stop event that finds
    it clear; the result is the object, the number of looks and the seconds
    slept in all. [None] when the loop is still turning after [fuel] turns. *)
Fixpoint run (is_set : nat -> bool) (fuel k : nat) (basicEscObj : t)
  : option (t * (nat * nat)) :=
  match fuel with
  | O => None
  | S fuel' =>
      if is_set k then Some (basicEscObj, (S k, O))
      else
        let '(basicEscObj', (k', slept)) := iteration is_set (S k) basicEscObj in
        match run is_set fuel' k' basicEscObj' with
        | None => None
        | Some (final, (k'', slept')) => Some (final, (k'', (slept + slept')%nat))
        end
  end.

(** The effect of one turn on the shared object. *)
Definition decay (basicEscObj : t) : t :=
  fst (iteration (fun _ => false) O basicEscObj).

End SimpleDecrease.

(** ** mainLoop: the polling loop *)

Module MainLoop.

Import BasicEscalator.
Local Open Scope method_scope.

(** What one turn prints. *)
Record report : Type := Report {
  last_measurement : pyval;
  new_measurement : pyval;
  on_escalator : Z;
  printed_status : string
}.

(** One turn of [while True]. The attribute [countLoop.current_distance] is
    read four times in a turn, and the sensor thread may replace it between
    two reads: [d1] .. [d4] are the four values read. An exception leaves the
    loop, no handler but the one of KeyboardInterrupt being there. *)
Definition body (d1 d2 d3 d4 : pyval) : method report :=
  compareAndIncrease d1 ;;
  self <- get ;;
  let out := Report (_lastMeasurement self) d2 (escalatorCount self) (status self) in
  (if negb (is_None d3) then setLastMeasurement d4 else ret tt) ;;
  ret out.

(** A turn during which the sensor thread publishes nothing new. *)
Definition iteration (current_distance : pyval) : method report :=
  body current_distance current_distance current_distance current_distance.

(** Consecutive turns, one per measurement. *)
Fixpoint polls (ds : list pyval) : method (list report) :=
  match ds with
  | [] => ret []
  | d :: ds' =>
      r <- iteration d ;;
      rs <- polls ds' ;;
      ret (r :: rs)
  end.

End MainLoop.

(** ** The system as a whole

    The object of class [BasicEscalator] is shared by the main loop and the
    decay thread. A state is reachable when turns of the two loops, taken in
    any order from the state [__init__] builds, lead to it; a turn of the main
    loop may read any values from the sensor thread. *)

Inductive reachable : BasicEscalator.t -> Prop :=
| reach_init : reachable BasicEscalator.__init__
| reach_turn (d1 d2 d3 d4 : pyval) (s : BasicEscalator.t) :
    reachable s -> reachable (snd (MainLoop.body d1 d2 d3 d4 s))
| reach_decay (s : BasicEscalator.t) :
    reachable s -> reachable (SimpleDecrease.decay s).

(** The same rule as [compareAndIncrease] evaluates it:
    [abs(l - m) >= DEVIATION and not (m > l)]. *)
Definition detects (lastMeasurement measurement : pyval) : result bool :=
  (d <- py_sub lastMeasurement measurement ;;
   a <- py_abs d ;;
   far <- py_ge a DEVIATION ;;
   if far
   then (g <- py_gt measurement lastMeasurement ;; Ok (negb g))
   else Ok false)%py.

(** *** Interleaving inside the methods

    Nothing guards the shared count: [self._onEscalator += 1] in the main
    thread and [self._onEscalator -= decreaseFactor] in the decay thread each
    read the attribute and write it back later, and the other thread may run
    in between. The machine below takes one such access at a time. The decay
    thread reads the count three times in a turn: in the guard, as the
    argument of [decreaseCount], and in the subtraction. *)

Inductive main_pc : Type :=
| MainIdle
| MainLoaded (v : Z).

Inductive decay_pc : Type :=
| DecayIdle
| DecayGuarded
| DecayArg (c : Z)
| DecayLoaded (c v : Z).

Record machine : Type := Machine {
  shared : BasicEscalator.t;
  main : main_pc;
  decay : decay_pc
}.

Definition with_count (self : BasicEscalator.t) (n : Z) : BasicEscalator.t :=
  BasicEscalator.Build (BasicEscalator._status self) n
                       (BasicEscalator._lastMeasurement self).

Definition machine_init : machine :=
  Machine BasicEscalator.__init__ MainIdle DecayIdle.

Inductive mstep : machine -> machine -> Prop :=
| main_load (measurement : pyval) (s : machine) :
    main s = MainIdle ->
    detects (BasicEscalator._lastMeasurement (shared s)) measurement = Ok true ->
    mstep s (Machine (shared s)
                     (MainLoaded (BasicEscalator._onEscalator (shared s)))
                     (decay s))
| main_store (v : Z) (s : machine) :
    main s = MainLoaded v ->
    mstep s (Machine (with_count (shared s) (v + 1)) MainIdle (decay s))
| main_record (d : pyval) (s : machine) :
    main s = MainIdle ->
    mstep s (Machine (snd (BasicEscalator.setLastMeasurement d (shared s)))
                     MainIdle (decay s))
| decay_guard (s : machine) :
    decay s = DecayIdle ->
    (BasicEscalator.escalatorCount (shared s) >=? 0) = true ->
    mstep s (Machine (shared s) (main s) DecayGuarded)
| decay_arg (s : machine) :
    decay s = DecayGuarded ->
    mstep s (Machine (shared s) (main s)
                     (DecayArg (BasicEscalator.escalatorCount (shared s))))
| decay_load (c : Z) (s : machine) :
    decay s = DecayArg c ->
    mstep s (Machine (shared s) (main s)
                     (DecayLoaded c (BasicEscalator._onEscalator (shared s))))
| decay_store (c v : Z) (s : machine) :
    decay s = DecayLoaded c v ->
    mstep s (Machine (with_count (shared s) (v - c)) (main s) DecayIdle).

Inductive mreachable : machine -> Prop :=
| mreach_init : mreachable machine_init
| mreach_step (s s' : machine) : mreachable s -> mstep s s' -> mreachable s'.

(** What the accesses in flight know of the count. *)
Definition count_bounds (s : machine) : Prop :=
  let n := BasicEscalator.escalatorCount (shared s) in
  0 <= n /\
  match main s with
  | MainIdle => True
  | MainLoaded v => n <= v
  end /\
  match decay s with
  | DecayIdle | DecayGuarded => True
  | DecayArg c => 0 <= c <= n
  | DecayLoaded c v => 0 <= c <= v /\ v <= n
  end.

(** ** The statements of the design document, and the inputs of the examples *)

(** The detection rule in the document's words:
    [abs(lastMeasurement - measurement) >= deviationCm AND
     measurement <= lastMeasurement]. *)
Definition qualifies (lastMeasurement measurement : pyval) : result bool :=
  (d <- py_sub lastMeasurement measurement ;;
   a <- py_abs d ;;
   far <- py_ge a DEVIATION ;;
   closer <- py_le measurement lastMeasurement ;;
   Ok (far && closer))%py.

(** The object after one more rider was counted. *)
Definition counted (self : BasicEscalator.t) : BasicEscalator.t :=
  BasicEscalator.Build (BasicEscalator._status self)
                       (BasicEscalator._onEscalator self + 1)
                       (BasicEscalator._lastMeasurement self).

(** An escalator with [count] riders whose last recorded measurement is [l]. *)
Definition seen (count : Z) (l : pyval) : BasicEscalator.t :=
  BasicEscalator.Build PyNone count l.

Definition f95 : pyval := PyFloat (F64.of_Z 95).
Definition f97 : pyval := PyFloat (F64.of_Z 97).
Definition f99 : pyval := PyFloat (F64.of_Z 99).
Definition f100 : pyval := PyFloat (F64.of_Z 100).
Definition f105 : pyval := PyFloat (F64.of_Z 105).

(** A measurement above 0: a positive int or a float above zero. *)
Definition above_zero (measurement : pyval) : Prop :=
  py_gt measurement (PyInt 0) = Ok true.

(** What the sensor thread publishes when the distances are positive:
    nothing yet, or a float above zero. *)
Definition absent_or_positive (d : pyval) : bool :=
  match d with
  | PyNone => true
  | PyFloat f => SFltb (S754_zero false) f
  | _ => false
  end.

Definition recorded_positive (v : pyval) : Prop :=
  exists f, v = PyFloat f /\ SFltb (S754_zero false) f = true.

(** Along turns that read positive distances, the last measurement is either
    still the initial 0, with nobody counted, or a recorded positive float. *)
Definition waiting_or_recorded (self : BasicEscalator.t) : Prop :=
  (BasicEscalator._lastMeasurement self = PyInt 0 /\
   BasicEscalator.escalatorCount self = 0) \/
  recorded_positive (BasicEscalator._lastMeasurement self).

(** [SPEEDOFSOUND / 2] as a float. *)
Definition half_speed : spec_float := F64.div (F64.of_Z 34300) (F64.of_Z 2).

(** [r] is [x] rounded to two decimal places: the float nearest to the decimal
    [k / 100], where [k] is the integer nearest to [100 * |x|], the even one of
    the two when [100 * |x|] lies halfway. For [x = m * 2^e] the fraction
    [N / D] below is [100 * |x|]. Zeros, infinities and NaN are kept. *)
Definition nearest_hundredth (m : positive) (e k : Z) : Prop :=
  let N := 100 * Zpos m * 2 ^ Z.max e 0 in
  let D := 2 ^ Z.max (- e) 0 in
  0 <= k /\
  Z.abs (2 * N - 2 * k * D) <= D /\
  (Z.abs (2 * N - 2 * k * D) = D -> Z.even k = true).

Definition rounded_to_2_decimals (x r : spec_float) : Prop :=
  match x with
  | S754_finite s m e =>
      exists k : Z, nearest_hundredth m e k /\ r = float_of_decimal s k 2
  | _ => r = x
  end.

(** A float is a stamp of the clock; a local of [run] holds one or nothing. *)
Definition unbound_or_float (x : option pyval) : bool :=
  match x with
  | None | Some (PyFloat _) => true
  | _ => false
  end.

(** An ECHO pin that never rises. *)
Definition stuck_low : ThreadedLoop.gpio :=
  ThreadedLoop.Gpio (fun _ => false) (fun n => F64.of_Z (Z.of_nat n)).

(** An ECHO pin that is high from the fourth read to the tenth. *)
Definition one_pulse : ThreadedLoop.gpio :=
  ThreadedLoop.Gpio (fun n => Nat.leb 3 n && Nat.ltb n 10)
                    (fun n => F64.of_Z (Z.of_nat n)).

(** 0.001 and 17.15 as floats. *)
Definition one_millisecond : spec_float := S754_finite false 4611686018427388 (-62).
Definition f17_15 : spec_float := S754_finite false 4827295850587750 (-48).

(** ** Further notions, for the properties of the loops *)

(** What the sensor thread ever publishes: nothing yet, or a float. *)
Definition sensor_value (d : pyval) : bool := is_None d || type_is_float d.

(** The riders that turns of the main loop count on the measurements [ds],
    the last recorded measurement being [l]: one for each measurement that
    qualifies against the one before it. *)
Fixpoint detections (l : pyval) (ds : list pyval) : Z :=
  match ds with
  | [] => 0
  | d :: ds' =>
      if is_None d then detections l ds'
      else (match qualifies l d with Ok true => 1 | _ => 0 end) + detections d ds'
  end.

(** The measurement recorded last after the turns on [ds]. *)
Fixpoint last_recorded (l : pyval) (ds : list pyval) : pyval :=
  match ds with
  | [] => l
  | d :: ds' => last_recorded (if is_None d then l else d) ds'
  end.

(** A local of [run] that holds a stamp of the clock. *)
Definition bound_float (x : option pyval) : bool :=
  match x with
  | Some (PyFloat _) => true
  | _ => false
  end.

(** From read [n] on, the ECHO pin is low up to read [i], where it is first
    read high, then high up to read [j], where it is first read low again. *)
Definition pulse_at (hw : ThreadedLoop.gpio) (n i j : nat) : Prop :=
  (n <= i)%nat /\ (i < j)%nat /\
  (forall k, (n <= k)%nat -> (k < i)%nat -> ThreadedLoop.echo hw k = false) /\
  ThreadedLoop.echo hw i = true /\
  (forall k, (i < k)%nat -> (k < j)%nat -> ThreadedLoop.echo hw k = true) /\
  ThreadedLoop.echo hw j = false.

(** The thread as [run] keeps it: the published distance is absent or a
    float, and each local is unbound or holds a float. *)
Definition well_formed (self : ThreadedLoop.t) : Prop :=
  sensor_value (ThreadedLoop._current_distance self) = true /\
  unbound_or_float (ThreadedLoop.pulse_start self) = true /\
  unbound_or_float (ThreadedLoop.pulse_end self) = true.

(** A thread that has measured before: both locals hold stamps. *)
Definition has_measured (a b : spec_float) : ThreadedLoop.t :=
  ThreadedLoop.Build PyNone (Some (PyFloat a)) (Some (PyFloat b)) O [].

(** The sign bit of a float; a NaN has none. *)
Definition sign_bit (f : spec_float) : option bool :=
  match f with
  | S754_zero s | S754_infinity s | S754_finite s _ _ => Some s
  | S754_nan => None
  end.

(** A stop event that is set at look [K] and stays set. *)
Definition set_from (K : nat) (k : nat) : bool := Nat.leb K k.

(** * Properties *)

Import BasicEscalator.

(** ** The test of [compareAndIncrease] *)

Lemma compareAndIncrease_unfold (measurement : pyval) (self : t) :
  compareAndIncrease measurement self =
    if is_None measurement then (Ok tt, self)
    else match detects (_lastMeasurement self) measurement with
         | Ok true => (Ok tt, counted self)
         | Ok false => (Ok tt, self)
         | Raise e => (Raise e, self)
         end.
Proof.
  unfold compareAndIncrease, detects.
  destruct (is_None measurement); [reflexivity|].
  cbn [negb]. unfold bind, get, eval, ret, rbind.
  destruct (py_sub (_lastMeasurement self) measurement) as [d|e]; [|reflexivity].
  destruct (py_abs d) as [a|e]; [|reflexivity].
  destruct (py_ge a DEVIATION) as [[|]|e]; [| reflexivity | reflexivity].
  destruct (py_gt measurement (_lastMeasurement self)) as [[|]|e]; reflexivity.
Qed.

Lemma sub_not_nan (f g : spec_float) :
  F64.is_nan (F64.sub f g) = false -> F64.is_nan f = false /\ F64.is_nan g = false.
Proof.
  destruct f, g; cbn; try discriminate; auto.
Qed.

Lemma SFcompare_ordered (f g : spec_float) :
  F64.is_nan f = false -> F64.is_nan g = false -> exists c, SFcompare f g = Some c.
Proof.
  destruct f, g; cbn; try discriminate; eauto.
Qed.

Lemma compare_Z_ordered (f : spec_float) (z : Z) :
  F64.is_nan f = false -> exists c, F64.compare_Z f z = Some c.
Proof.
  destruct f; cbn; try discriminate; eauto.
Qed.

Lemma ge_deviation_not_nan (d : spec_float) :
  py_ge (PyFloat (SFabs d)) DEVIATION = Ok true -> F64.is_nan d = false.
Proof.
  destruct d; cbn; try discriminate; auto.
Qed.

(** Past the distance test no operand is a NaN, so [not (m > l)] and [m <= l]
    agree. *)
Lemma detects_qualifies (l m : pyval) : detects l m = qualifies l m.
Proof.
  unfold detects, qualifies.
  destruct l as [|x|f|s], m as [|y|g|s']; try reflexivity.
  - (* int, int *)
    cbn. destruct (Z.abs (x - y) ?= 2); cbn; destruct (y ?= x); reflexivity.
  - (* int, float *)
    cbn. destruct (int_to_float x) as [f|e]; [|reflexivity]. cbn [rbind py_abs].
    destruct (py_ge (PyFloat (SFabs (F64.sub f g))) DEVIATION) as [[|]|e] eqn:Hfar;
      cbn [rbind].
    + apply ge_deviation_not_nan, sub_not_nan in Hfar. destruct Hfar as [_ Hg].
      destruct (compare_Z_ordered g x Hg) as [c Hc].
      unfold py_gt, py_le, py_compare, rbind. rewrite Hc. destruct c; reflexivity.
    + unfold py_le, py_compare, rbind. reflexivity.
    + reflexivity.
  - (* float, int *)
    cbn. destruct (int_to_float y) as [g|e]; [|reflexivity]. cbn [rbind py_abs].
    destruct (py_ge (PyFloat (SFabs (F64.sub f g))) DEVIATION) as [[|]|e] eqn:Hfar;
      cbn [rbind].
    + apply ge_deviation_not_nan, sub_not_nan in Hfar. destruct Hfar as [Hf _].
      destruct (compare_Z_ordered f y Hf) as [c Hc].
      unfold py_gt, py_le, py_compare, rbind, option_map. rewrite Hc.
      destruct c; reflexivity.
    + unfold py_le, py_compare, rbind. reflexivity.
    + reflexivity.
  - (* float, float *)
    cbn [py_sub rbind py_abs].
    destruct (py_ge (PyFloat (SFabs (F64.sub f g))) DEVIATION) as [[|]|e] eqn:Hfar;
      cbn [rbind].
    + apply ge_deviation_not_nan, sub_not_nan in Hfar. destruct Hfar as [Hf Hg].
      destruct (SFcompare_ordered g f Hg Hf) as [c Hc].
      unfold py_gt, py_le, py_compare, rbind. rewrite Hc. destruct c; reflexivity.
    + unfold py_le, py_compare, rbind. reflexivity.
    + reflexivity.
Qed.

Lemma detects_floats (l f : spec_float) :
  exists b, detects (PyFloat l) (PyFloat f) = Ok b.
Proof.
  unfold detects. cbn [py_sub rbind py_abs].
  unfold py_ge, py_gt, py_compare, DEVIATION. cbn [rbind].
  match goal with
  | |- context [F64.compare_Z ?a ?z] => destruct (F64.compare_Z a z) as [[| |]|]
  end; destruct (SFcompare f l) as [[| |]|]; cbn; eauto.
Qed.

Lemma detects_from_zero (f : spec_float) :
  exists b, detects (PyInt 0) (PyFloat f) = Ok b.
Proof.
  unfold detects. cbn [py_sub]. change (int_to_float 0) with (Ok (S754_zero false)).
  cbn [rbind py_abs]. unfold py_ge, py_gt, py_compare, DEVIATION. cbn [rbind].
  match goal with
  | |- context [F64.compare_Z ?a 2] => destruct (F64.compare_Z a 2) as [[| |]|]
  end; destruct (F64.compare_Z f 0) as [[| |]|]; cbn; eauto.
Qed.

(** On the values the program handles, a float against the initial 0 or an
    earlier float, the test raises nothing. *)
Lemma detects_returns (l m : pyval) :
  type_is_float m = true ->
  l = PyInt 0 \/ type_is_float l = true ->
  exists b, detects l m = Ok b.
Proof.
  destruct m as [| |f|]; try discriminate. intros _ [-> | Hl].
  - apply detects_from_zero.
  - destruct l as [| |g|]; try discriminate. apply detects_floats.
Qed.

(** C2. [compareAndIncrease] leaves the whole object as it is when the
    measurement is absent; for a measurement that is present it counts one
    rider exactly when [abs(lastMeasurement - measurement) >= DEVIATION] and
    [measurement <= lastMeasurement], and otherwise changes nothing; on a
    float, against the initial 0 or an earlier float, it returns. With a
    last measurement of 100 and a deviation of 2, a measurement of 95 counts
    once, and 99 and 105 do not count. *)
Theorem compareAndIncrease_rule (self : t) (measurement : pyval) :
  compareAndIncrease PyNone self = (Ok tt, self) /\
  (is_None measurement = false ->
     (escalatorCount (snd (compareAndIncrease measurement self))
        = escalatorCount self + 1
      <-> qualifies (_lastMeasurement self) measurement = Ok true) /\
     snd (compareAndIncrease measurement self)
       = match qualifies (_lastMeasurement self) measurement with
         | Ok true => counted self
         | _ => self
         end) /\
  (type_is_float measurement = true ->
   _lastMeasurement self = PyInt 0 \/ type_is_float (_lastMeasurement self) = true ->
     fst (compareAndIncrease measurement self) = Ok tt) /\
  (forall n : Z,
     DEVIATION = PyInt 2 /\
     compareAndIncrease f95 (seen n f100) = (Ok tt, seen (n + 1) f100) /\
     compareAndIncrease f99 (seen n f100) = (Ok tt, seen n f100) /\
     compareAndIncrease f105 (seen n f100) = (Ok tt, seen n f100)).
Proof.
  split; [reflexivity|]. split; [|split].
  - intros Hm. rewrite compareAndIncrease_unfold, Hm, detects_qualifies.
    destruct (qualifies (_lastMeasurement self) measurement) as [[|]|e]; cbn.
    + split; [tauto | reflexivity].
    + split; [split; [unfold escalatorCount; lia | discriminate] | reflexivity].
    + split; [split; [unfold escalatorCount; lia | discriminate] | reflexivity].
  - intros Hm Hl. rewrite compareAndIncrease_unfold.
    destruct (detects_returns _ _ Hm Hl) as [b ->].
    destruct measurement; try discriminate. destruct b; reflexivity.
  - intros n. repeat split.
Qed.

Lemma compareAndIncrease_rule_witness :
  is_None f95 = false /\
  type_is_float f95 = true /\
  type_is_float (_lastMeasurement (seen 0 f100)) = true /\
  snd (compareAndIncrease f95 (seen 0 f100)) = seen 1 f100 /\
  fst (compareAndIncrease f95 (seen 0 f100)) = Ok tt.
Proof.
  pose proof (compareAndIncrease_rule (seen 0 f100) f95) as (_ & Hrule & Hret & _).
  split; [reflexivity|]. split; [reflexivity|]. split; [reflexivity|]. split.
  - exact (proj2 (Hrule (eq_refl false))).
  - exact (Hret (eq_refl true) (or_intror (eq_refl true))).
Defined.

(** ** The count *)

Lemma compareAndIncrease_frame (measurement : pyval) (self : t) :
  _lastMeasurement (snd (compareAndIncrease measurement self)) = _lastMeasurement self /\
  _status (snd (compareAndIncrease measurement self)) = _status self /\
  (escalatorCount (snd (compareAndIncrease measurement self)) = escalatorCount self \/
   escalatorCount (snd (compareAndIncrease measurement self)) = escalatorCount self + 1).
Proof.
  rewrite compareAndIncrease_unfold.
  destruct (is_None measurement); [cbn; auto|].
  destruct (detects (_lastMeasurement self) measurement) as [[|]|e]; cbn; auto.
Qed.

Lemma setLastMeasurement_unfold (measurement : pyval) (self : t) :
  setLastMeasurement measurement self =
    if type_is_float measurement
    then (Ok tt, Build (_status self) (_onEscalator self) measurement)
    else (Raise ValueError, self).
Proof.
  destruct measurement; reflexivity.
Qed.

Lemma setLastMeasurement_count (measurement : pyval) (self : t) :
  escalatorCount (snd (setLastMeasurement measurement self)) = escalatorCount self.
Proof.
  rewrite setLastMeasurement_unfold. destruct (type_is_float measurement); reflexivity.
Qed.

Lemma body_state (d1 d2 d3 d4 : pyval) (self : t) :
  snd (MainLoop.body d1 d2 d3 d4 self) =
    match fst (compareAndIncrease d1 self) with
    | Ok _ =>
        if is_None d3 then snd (compareAndIncrease d1 self)
        else snd (setLastMeasurement d4 (snd (compareAndIncrease d1 self)))
    | Raise _ => snd (compareAndIncrease d1 self)
    end.
Proof.
  unfold MainLoop.body, bind, get, ret.
  destruct (compareAndIncrease d1 self) as [[u|e] s1]; cbn [fst snd]; [|reflexivity].
  destruct (is_None d3); cbn [negb]; [reflexivity|].
  destruct (setLastMeasurement d4 s1) as [[u'|e] s2]; reflexivity.
Qed.

Lemma body_count (d1 d2 d3 d4 : pyval) (self : t) :
  escalatorCount self <= escalatorCount (snd (MainLoop.body d1 d2 d3 d4 self)).
Proof.
  rewrite body_state.
  pose proof (compareAndIncrease_frame d1 self) as (_ & _ & Hc).
  destruct (fst (compareAndIncrease d1 self)); [destruct (is_None d3)|];
    rewrite ?setLastMeasurement_count; lia.
Qed.

Lemma decay_unfold (self : t) :
  SimpleDecrease.decay self =
    if escalatorCount self >=? 0
    then Build (_status self) 0 (_lastMeasurement self)
    else self.
Proof.
  unfold SimpleDecrease.decay, SimpleDecrease.iteration.
  destruct (escalatorCount self >=? 0); [|reflexivity].
  cbn. unfold escalatorCount. f_equal. lia.
Qed.

Lemma reachable_count_nonneg (s : t) : reachable s -> 0 <= escalatorCount s.
Proof.
  induction 1 as [| d1 d2 d3 d4 s _ IH | s _ IH].
  - reflexivity.
  - pose proof (body_count d1 d2 d3 d4 s). lia.
  - rewrite decay_unfold. destruct (escalatorCount s >=? 0); cbn; lia.
Qed.

(** The last measurement is the 0 of the constructor or a float: nothing else
    passes the test of [setLastMeasurement]. *)
Lemma reachable_lastMeasurement (s : t) :
  reachable s ->
  _lastMeasurement s = PyInt 0 \/ type_is_float (_lastMeasurement s) = true.
Proof.
  induction 1 as [| d1 d2 d3 d4 s _ IH | s _ IH].
  - left. reflexivity.
  - rewrite body_state.
    pose proof (compareAndIncrease_frame d1 s) as (Hl & _ & _).
    destruct (fst (compareAndIncrease d1 s)); [destruct (is_None d3)|];
      try (rewrite Hl; exact IH).
    rewrite setLastMeasurement_unfold.
    destruct (type_is_float d4) eqn:E; cbn [snd _lastMeasurement]; [auto|].
    rewrite Hl. exact IH.
  - rewrite decay_unfold. destruct (escalatorCount s >=? 0); exact IH.
Qed.

(** The count does not go below 0 even when the two threads interleave inside
    [+=] and [-=]: an increment can be lost, a decrement never exceeds what
    the count holds when it is written. *)
Lemma mstep_count_bounds (s s' : machine) :
  count_bounds s -> mstep s s' -> count_bounds s'.
Proof.
  unfold count_bounds. intros (Hn & Hmain & Hdecay) Hstep.
  destruct Hstep as [m s Hm Hd | v s Hm | d s Hm | s Hd Hg | s Hd | c s Hd | c v s Hd];
    cbn [shared main decay with_count escalatorCount _onEscalator];
    unfold escalatorCount in *;
    try rewrite setLastMeasurement_count; unfold escalatorCount;
    try rewrite Hm in Hmain; try rewrite Hd in Hdecay;
    try (destruct (main s); destruct (decay s); intuition lia).
Qed.

Lemma mreachable_count_bounds (s : machine) : mreachable s -> count_bounds s.
Proof.
  induction 1 as [| s s' _ IH Hstep].
  - unfold count_bounds. cbn. lia.
  - exact (mstep_count_bounds s s' IH Hstep).
Qed.

(** C1, as the code has it. [decreaseCount] subtracts its argument from the
    count without any clamping, so the new count is below 0 exactly when the
    argument exceeds the count; the count stays at or above 0 along every run
    of the program, whose only call passes the count itself, whether the
    turns of the two loops are taken whole or interleave access by access. *)
Theorem decreaseCount_subtracts (self : t) (amount : Z) (m : machine) :
  decreaseCount amount self
    = (Ok tt, Build (_status self) (escalatorCount self - amount) (_lastMeasurement self)) /\
  (0 <= escalatorCount (snd (decreaseCount amount self)) <-> amount <= escalatorCount self) /\
  (reachable self -> 0 <= escalatorCount self) /\
  (mreachable m -> 0 <= escalatorCount (shared m)).
Proof.
  split; [reflexivity|]. split; [|split].
  - cbn. unfold escalatorCount. lia.
  - apply reachable_count_nonneg.
  - intros H. exact (proj1 (mreachable_count_bounds m H)).
Qed.

Lemma decreaseCount_subtracts_witness :
  reachable (SimpleDecrease.decay __init__) /\
  mreachable (Machine __init__ MainIdle DecayGuarded) /\
  0 <= escalatorCount (SimpleDecrease.decay __init__) /\
  0 <= escalatorCount (shared (Machine __init__ MainIdle DecayGuarded)).
Proof.
  assert (H : reachable (SimpleDecrease.decay __init__))
    by exact (reach_decay _ reach_init).
  assert (Hm : mreachable (Machine __init__ MainIdle DecayGuarded))
    by exact (mreach_step _ _ mreach_init
                (decay_guard machine_init (eq_refl DecayIdle) (eq_refl true))).
  pose proof (decreaseCount_subtracts (SimpleDecrease.decay __init__) 0
                (Machine __init__ MainIdle DecayGuarded)) as (_ & _ & H1 & H2).
  split; [exact H|]. split; [exact Hm|]. split; [exact (H1 H) | exact (H2 Hm)].
Defined.

(** C1 as stated fails: on a fresh escalator [decreaseCount()] leaves -1. *)
Lemma decreaseCount_not_clamped :
  ~ (0 <= escalatorCount (snd (decreaseCount_default __init__))).
Proof.
  cbn. lia.
Qed.

(** C3. The status is "Running" exactly when the count is above 0, and
    "Stopped" otherwise; this holds in every state, reachable or not. *)
Theorem status_running_iff (self : t) :
  (status self = RUNNING <-> 0 < escalatorCount self) /\
  (status self = STOPPED <-> escalatorCount self <= 0).
Proof.
  unfold status. destruct (Z.gtb_spec (escalatorCount self) 0) as [H|H].
  - repeat split; intros; try lia; try reflexivity; discriminate.
  - repeat split; intros; try lia; try reflexivity; discriminate.
Qed.

(** ** Recording a measurement *)

(** C4, as the code has it. [setLastMeasurement] raises ValueError exactly
    when its argument is not of type float, which covers an absent argument,
    a value that is not a number, and also an int; the object is then left as
    it was. An argument of type float is stored as the last measurement and
    the call returns. *)
Theorem setLastMeasurement_float_only (self : t) (measurement : pyval) :
  (fst (setLastMeasurement measurement self) = Raise ValueError
   <-> type_is_float measurement = false) /\
  (type_is_float measurement = false ->
     setLastMeasurement measurement self = (Raise ValueError, self)) /\
  (type_is_float measurement = true ->
     setLastMeasurement measurement self
       = (Ok tt, Build (_status self) (_onEscalator self) measurement)) /\
  (is_None measurement = true \/ is_numeric measurement = false ->
     fst (setLastMeasurement measurement self) = Raise ValueError).
Proof.
  rewrite setLastMeasurement_unfold.
  destruct measurement; cbn; repeat split; intros; try reflexivity;
    try discriminate; try tauto.
  all: destruct H; discriminate.
Qed.

Lemma setLastMeasurement_float_only_witness :
  type_is_float f100 = true /\
  setLastMeasurement f100 __init__ = (Ok tt, Build PyNone 0 f100).
Proof.
  split; [reflexivity|].
  exact (proj1 (proj2 (proj2 (setLastMeasurement_float_only __init__ f100)))
           (eq_refl true)).
Defined.

(** C4 as stated fails on an int: 5 is present and is a number, and the
    call raises all the same. *)
Lemma setLastMeasurement_rejects_int :
  ~ (fst (setLastMeasurement (PyInt 5) __init__) = Raise ValueError
     <-> (is_None (PyInt 5) = true \/ is_numeric (PyInt 5) = false)).
Proof.
  cbn. intros [H _]. destruct (H eq_refl); discriminate.
Qed.

(** C10. [compareAndIncrease] never touches the last measurement and moves
    the count by 0 or by 1; a call of [setLastMeasurement] that returns has
    stored its argument and never touches the count. *)
Theorem mutations_are_disjoint (self : t) (measurement : pyval) :
  (_lastMeasurement (snd (compareAndIncrease measurement self)) = _lastMeasurement self /\
   (escalatorCount (snd (compareAndIncrease measurement self)) = escalatorCount self \/
    escalatorCount (snd (compareAndIncrease measurement self)) = escalatorCount self + 1)) /\
  (fst (setLastMeasurement measurement self) = Ok tt ->
   _lastMeasurement (snd (setLastMeasurement measurement self)) = measurement /\
   escalatorCount (snd (setLastMeasurement measurement self)) = escalatorCount self).
Proof.
  split.
  - pose proof (compareAndIncrease_frame measurement self) as (Hl & _ & Hc). auto.
  - rewrite setLastMeasurement_unfold.
    destruct (type_is_float measurement); cbn; [auto | discriminate].
Qed.

Lemma mutations_are_disjoint_witness :
  fst (setLastMeasurement f97 (seen 3 f100)) = Ok tt /\
  _lastMeasurement (snd (setLastMeasurement f97 (seen 3 f100))) = f97 /\
  escalatorCount (snd (setLastMeasurement f97 (seen 3 f100))) = 3.
Proof.
  split; [reflexivity|].
  exact (proj2 (mutations_are_disjoint (seen 3 f100) f97) (eq_refl (Ok tt))).
Defined.

(** ** The decay thread *)

Lemma wait_slept_le (is_set : nat -> bool) (n k : nat) :
  (snd (SimpleDecrease.wait is_set k n) <= n)%nat.
Proof.
  revert k. induction n as [|n IH]; intros k; cbn; [lia|].
  destruct (is_set k); cbn; [lia|].
  specialize (IH (S k)). destruct (SimpleDecrease.wait is_set (S k) n). cbn in *. lia.
Qed.

(** C7. On a count that is not negative, as it is in every reachable state,
    one turn of the loop of [SimpleDecrease.run] subtracts the whole count:
    the count is 0 afterwards and the last measurement is untouched, whatever
    the stop event does during the wait, which sleeps TRAVELTIME seconds at
    most. *)
Theorem decay_turn_resets (is_set : nat -> bool) (k : nat) (self : t) :
  (0 <= escalatorCount self ->
   escalatorCount (fst (SimpleDecrease.iteration is_set k self)) = 0 /\
   fst (SimpleDecrease.iteration is_set k self)
     = snd (decreaseCount (escalatorCount self) self) /\
   _lastMeasurement (fst (SimpleDecrease.iteration is_set k self)) = _lastMeasurement self /\
   status (fst (SimpleDecrease.iteration is_set k self)) = STOPPED /\
   (snd (snd (SimpleDecrease.iteration is_set k self)) <= TRAVELTIME)%nat) /\
  (reachable self ->
   escalatorCount (fst (SimpleDecrease.iteration is_set k self)) = 0).
Proof.
  assert (Hzero : 0 <= escalatorCount self ->
                  escalatorCount (fst (SimpleDecrease.iteration is_set k self)) = 0).
  { intros H. unfold SimpleDecrease.iteration.
    destruct (Z.geb_spec (escalatorCount self) 0) as [_|Hn]; [|lia].
    cbn. unfold escalatorCount. lia. }
  split.
  - intros H. split; [exact (Hzero H)|]. unfold SimpleDecrease.iteration.
    destruct (Z.geb_spec (escalatorCount self) 0) as [_|Hn]; [|lia].
    cbn [fst snd]. repeat split.
    + cbn. unfold status, escalatorCount. cbn. rewrite Z.sub_diag. reflexivity.
    + apply wait_slept_le.
  - intros H. exact (Hzero (reachable_count_nonneg self H)).
Qed.

Lemma decay_turn_resets_witness :
  0 <= escalatorCount (seen 4 f97) /\
  reachable __init__ /\
  escalatorCount (fst (SimpleDecrease.iteration (fun _ => false) 0 (seen 4 f97))) = 0 /\
  escalatorCount (fst (SimpleDecrease.iteration (fun _ => false) 0 __init__)) = 0.
Proof.
  assert (H : 0 <= escalatorCount (seen 4 f97)) by (cbn; lia).
  split; [exact H|]. split; [exact reach_init|]. split.
  - exact (proj1 (proj1 (decay_turn_resets (fun _ => false) 0%nat (seen 4 f97)) H)).
  - exact (proj2 (decay_turn_resets (fun _ => false) 0%nat __init__) reach_init).
Defined.

(** ** The main loop *)

(** C8. Five turns of the main loop on the measurements 100.0, 100.0, 97.0,
    97.0, 97.0, from the initial state and with DEVIATION = 2, count exactly
    one rider, at the third turn (the first to see 97.0 against 100.0): the
    counts printed are 0, 0, 1, 1, 1, each turn compares with the measurement
    of the turn before, and the run ends with a count of 1 and the status
    "Running". One turn of the decay thread then leaves a count of 0 and the
    status "Stopped". *)
Theorem scenario_one_rider :
  let run := MainLoop.polls [f100; f100; f97; f97; f97] __init__ in
  let final := snd run in
  DEVIATION = PyInt 2 /\
  fst run = Ok [ MainLoop.Report (PyInt 0) f100 0 STOPPED;
                 MainLoop.Report f100 f100 0 STOPPED;
                 MainLoop.Report f100 f97 1 RUNNING;
                 MainLoop.Report f97 f97 1 RUNNING;
                 MainLoop.Report f97 f97 1 RUNNING ] /\
  escalatorCount final = 1 /\
  status final = RUNNING /\
  escalatorCount (SimpleDecrease.decay final) = 0 /\
  status (SimpleDecrease.decay final) = STOPPED.
Proof.
  vm_compute. repeat split.
Qed.

Lemma compareAndIncrease_from_zero (self : t) (measurement : pyval) :
  _lastMeasurement self = PyInt 0 ->
  above_zero measurement ->
  compareAndIncrease measurement self = (Ok tt, self).
Proof.
  unfold above_zero. intros Hl Hpos.
  rewrite compareAndIncrease_unfold, Hl.
  destruct measurement as [|y|g|s]; try discriminate; cbn [is_None]; unfold detects.
  - cbn [py_sub rbind py_abs].
    destruct (py_ge (PyInt (Z.abs (0 - y))) DEVIATION) as [[|]|e] eqn:Hfar;
      cbn [rbind]; [rewrite Hpos; reflexivity | reflexivity | discriminate].
  - cbn [py_sub]. change (int_to_float 0) with (Ok (S754_zero false)).
    cbn [rbind py_abs].
    destruct (py_ge (PyFloat (SFabs (F64.sub (S754_zero false) g))) DEVIATION)
      as [[|]|e] eqn:Hfar;
      cbn [rbind]; [rewrite Hpos; reflexivity | reflexivity | discriminate].
Qed.

Lemma absent_or_positive_above_zero (d : pyval) :
  absent_or_positive d = true -> d = PyNone \/ (above_zero d /\ type_is_float d = true).
Proof.
  destruct d as [| |f|]; cbn; try discriminate; auto.
  intros H. right. split; [|reflexivity].
  unfold above_zero, py_gt, py_compare, rbind.
  destruct f as [s|s| |s m e]; cbn in *; try discriminate.
  - destruct s; [discriminate | reflexivity].
  - destruct s; [discriminate|]. cbn [cond_Zopp].
    destruct (Z.leb_spec 0 e) as [He|He].
    + assert (0 < 2 ^ e) by (apply Z.pow_pos_nonneg; lia).
      destruct (Z.compare_spec (Zpos m * 2 ^ e) 0) as [E|E|E];
        [exfalso; nia | exfalso; nia | reflexivity].
    + reflexivity.
Qed.

Lemma iteration_absent (self : t) :
  MainLoop.iteration PyNone self
    = (Ok (MainLoop.Report (_lastMeasurement self) PyNone
             (escalatorCount self) (status self)), self).
Proof.
  reflexivity.
Qed.

Lemma iteration_float (f : spec_float) (b : bool) (self : t) :
  detects (_lastMeasurement self) (PyFloat f) = Ok b ->
  let self1 := if b then counted self else self in
  MainLoop.iteration (PyFloat f) self
    = (Ok (MainLoop.Report (_lastMeasurement self) (PyFloat f)
             (escalatorCount self1) (status self1)),
       Build (_status self) (escalatorCount self1) (PyFloat f)).
Proof.
  intros Hd. unfold MainLoop.iteration, MainLoop.body, bind.
  rewrite compareAndIncrease_unfold, Hd. cbn [is_None].
  destruct b; reflexivity.
Qed.

Lemma iteration_positive (d : pyval) (self : t) :
  waiting_or_recorded self ->
  absent_or_positive d = true ->
  exists r,
    fst (MainLoop.iteration d self) = Ok r /\
    (0 < MainLoop.on_escalator r -> recorded_positive (MainLoop.last_measurement r)) /\
    waiting_or_recorded (snd (MainLoop.iteration d self)).
Proof.
  intros Hinv Hd.
  destruct (absent_or_positive_above_zero d Hd) as [-> | [Hpos Hfl]].
  - rewrite iteration_absent. eexists. split; [reflexivity|]. cbn [snd].
    split; [|exact Hinv]. cbn. intros Hc.
    destruct Hinv as [[_ H0] | H]; [lia | exact H].
  - destruct d as [| |f|]; try discriminate.
    assert (Hrec : recorded_positive (PyFloat f)) by (exists f; split; [reflexivity | exact Hd]).
    destruct Hinv as [[Hl H0] | Hl].
    + pose proof (compareAndIncrease_from_zero self (PyFloat f) Hl Hpos) as Hc.
      rewrite compareAndIncrease_unfold in Hc. cbn [is_None] in Hc.
      assert (Hdet : detects (_lastMeasurement self) (PyFloat f) = Ok false).
      { destruct (detects (_lastMeasurement self) (PyFloat f)) as [[|]|e];
          [| reflexivity | discriminate].
        exfalso. injection Hc as Hc. unfold counted in Hc.
        apply (f_equal _onEscalator) in Hc. cbn in Hc. lia. }
      rewrite (iteration_float f false self Hdet). cbn [fst snd].
      eexists. split; [reflexivity|]. cbn. split; [lia|]. right. exact Hrec.
    + destruct Hl as (l & Hl & Hlpos).
      destruct (detects_floats l f) as [b Hb]. rewrite <- Hl in Hb.
      rewrite (iteration_float f b self Hb). cbn [fst snd].
      eexists. split; [reflexivity|]. cbn. split.
      * intros _. exists l. auto.
      * right. exact Hrec.
Qed.

Lemma polls_positive (ds : list pyval) (self : t) :
  waiting_or_recorded self ->
  forallb absent_or_positive ds = true ->
  exists rs,
    fst (MainLoop.polls ds self) = Ok rs /\
    List.length rs = List.length ds /\
    Forall (fun r => 0 < MainLoop.on_escalator r ->
                     recorded_positive (MainLoop.last_measurement r)) rs.
Proof.
  revert self. induction ds as [|d ds IH]; intros self Hinv Hds.
  - exists []. cbn. auto.
  - cbn in Hds. apply andb_true_iff in Hds. destruct Hds as [Hd Hds].
    destruct (iteration_positive d self Hinv Hd) as (r & Hr & Hrep & Hinv').
    cbn [MainLoop.polls]. unfold bind at 1.
    destruct (MainLoop.iteration d self) as [res s1]. cbn [fst snd] in *. subst res.
    destruct (IH s1 Hinv' Hds) as (rs & Hrs & Hlen & Hall).
    unfold bind at 1. destruct (MainLoop.polls ds s1) as [res' s2].
    cbn [fst] in Hrs. subst res'. cbn. exists (r :: rs). repeat split.
    + cbn. lia.
    + constructor; assumption.
Qed.

(** C9. While the last measurement is still the 0 the constructor wrote, and
    so in the initial state, [compareAndIncrease] on a measurement above 0
    counts nobody and changes nothing. Through any number of turns of the
    main loop that read positive distances (or none yet) from the initial
    state, every turn that prints a count above 0 prints a last measurement
    that is a positive float, which only [setLastMeasurement] can have
    recorded. *)
Theorem no_count_before_first_record (self : t) (measurement : pyval) (ds : list pyval) :
  _lastMeasurement __init__ = PyInt 0 /\
  (above_zero measurement ->
     compareAndIncrease measurement __init__ = (Ok tt, __init__) /\
     (_lastMeasurement self = PyInt 0 ->
        compareAndIncrease measurement self = (Ok tt, self))) /\
  (forallb absent_or_positive ds = true ->
     exists rs,
       fst (MainLoop.polls ds __init__) = Ok rs /\
       List.length rs = List.length ds /\
       Forall (fun r => 0 < MainLoop.on_escalator r ->
                        recorded_positive (MainLoop.last_measurement r)) rs).
Proof.
  split; [reflexivity|]. split.
  - intros Hpos. split.
    + apply compareAndIncrease_from_zero; [reflexivity | exact Hpos].
    + intros Hl. apply compareAndIncrease_from_zero; assumption.
  - apply polls_positive. left. split; reflexivity.
Qed.

Lemma no_count_before_first_record_witness :
  above_zero f100 /\
  forallb absent_or_positive [PyNone; f100; f97] = true /\
  compareAndIncrease f100 __init__ = (Ok tt, __init__) /\
  exists rs, fst (MainLoop.polls [PyNone; f100; f97] __init__) = Ok rs /\
             List.length rs = 3%nat.
Proof.
  pose proof (no_count_before_first_record __init__ f100 [PyNone; f100; f97])
    as (_ & Hone & Hrun).
  assert (Hpos : above_zero f100) by reflexivity.
  assert (Hds : forallb absent_or_positive [PyNone; f100; f97] = true) by reflexivity.
  split; [exact Hpos|]. split; [exact Hds|]. split.
  - exact (proj1 (Hone Hpos)).
  - destruct (Hrun Hds) as (rs & Hrs & Hlen & _). exists rs. split; assumption.
Defined.

(** ** Rounding in binary64 *)

Section Rounding64.

Local Abbreviation fexp := (SpecFloat.fexp F64.prec F64.emax).
Local Abbreviation shr_fexp := (SpecFloat.shr_fexp F64.prec F64.emax).
Local Abbreviation binary_round_aux := (SpecFloat.binary_round_aux F64.prec F64.emax).

Lemma fexp_eq (e : Z) : fexp e = Z.max (e - 53) (-1074).
Proof. reflexivity. Qed.

Lemma digits2_size (p : positive) : digits2_pos p = Pos.size p.
Proof. induction p; cbn; congruence. Qed.

Lemma digits2_bounds (p : positive) :
  2 ^ (Zpos (digits2_pos p) - 1) <= Zpos p < 2 ^ Zpos (digits2_pos p).
Proof.
  rewrite digits2_size.
  pose proof (Pos.size_gt p) as Hgt. pose proof (Pos.size_le p) as Hle.
  apply Pos2Z.pos_lt_pos in Hgt. apply Pos2Z.pos_le_pos in Hle.
  rewrite Pos2Z.inj_pow in Hgt, Hle. change (Zpos p~0) with (2 * Zpos p) in Hle.
  assert (2 ^ Zpos (Pos.size p) = 2 * 2 ^ (Zpos (Pos.size p) - 1))
    by (rewrite <- Z.pow_succ_r by lia; f_equal; lia).
  lia.
Qed.

Lemma Zdigits2_nonneg (m : Z) : 0 <= Zdigits2 m.
Proof. destruct m; cbn; lia. Qed.

Lemma Zdigits2_gt (m : Z) : 0 <= m -> m < 2 ^ Zdigits2 m.
Proof.
  destruct m as [|p|p]; cbn [Zdigits2]; intros H; [reflexivity | | lia].
  apply digits2_bounds.
Qed.

Lemma Zdigits2_le (m d : Z) : 0 <= d -> 0 <= m < 2 ^ d -> Zdigits2 m <= d.
Proof.
  intros Hd [H0 Hm]. destruct m as [|p|p]; cbn [Zdigits2]; [lia | | lia].
  pose proof (digits2_bounds p) as [Hlo _].
  destruct (Z.le_gt_cases (Zpos (digits2_pos p)) d) as [|Hgt]; [assumption|].
  exfalso. assert (2 ^ d <= 2 ^ (Zpos (digits2_pos p) - 1))
    by (apply Z.pow_le_mono_r; lia). lia.
Qed.

Lemma Zdigits2_shift (p : positive) (j : Z) :
  0 <= j -> Zdigits2 (Zpos p * 2 ^ j) = Zpos (digits2_pos p) + j.
Proof.
  intros Hj. pose proof (digits2_bounds p) as [Hlo Hhi].
  assert (Hpow : 0 < 2 ^ j) by (apply Z.pow_pos_nonneg; lia).
  destruct (Zpos p * 2 ^ j) as [|q|q] eqn:E; [lia | | lia].
  cbn [Zdigits2]. pose proof (digits2_bounds q) as [Hlo' Hhi']. rewrite <- E in *.
  set (d := Zpos (digits2_pos p)) in *. set (d' := Zpos (digits2_pos q)) in *.
  assert (Hd : 0 < d) by (subst d; lia). assert (Hd' : 0 < d') by (subst d'; lia).
  assert (H1 : 2 ^ (d - 1) * 2 ^ j <= Zpos p * 2 ^ j) by nia.
  assert (H2 : Zpos p * 2 ^ j < 2 ^ d * 2 ^ j) by nia.
  rewrite <- Z.pow_add_r in H1, H2 by lia.
  destruct (Z.lt_trichotomy d' (d + j)) as [Hlt | [Heq | Hgt]]; [| exact Heq |].
  - exfalso. assert (2 ^ d' <= 2 ^ (d - 1 + j)) by (apply Z.pow_le_mono_r; lia). lia.
  - exfalso. assert (2 ^ (d + j) <= 2 ^ (d' - 1)) by (apply Z.pow_le_mono_r; lia). lia.
Qed.

Lemma iter_pos_iter {A : Type} (f : A -> A) (p : positive) (x : A) :
  iter_pos f p x = Pos.iter f x p.
Proof.
  revert x. induction p as [p IH | p IH |]; intros x; cbn.
  - rewrite !IH. rewrite <- !Pos.iter_swap. reflexivity.
  - rewrite !IH. reflexivity.
  - reflexivity.
Qed.

Lemma shr_1_m (r : shr_record) : 0 <= shr_m r -> shr_m (shr_1 r) = shr_m r / 2.
Proof.
  destruct r as [m r s]. cbn [shr_m]. intros H.
  destruct m as [|[p|p|]|p]; cbn [shr_1 shr_m]; try lia; try reflexivity.
  - rewrite Pos2Z.inj_xI. apply Z.div_unique with (r := 1); lia.
  - rewrite Pos2Z.inj_xO. apply Z.div_unique with (r := 0); lia.
Qed.

Lemma shr_iter_m (p : positive) (r : shr_record) :
  0 <= shr_m r -> shr_m (iter_pos shr_1 p r) = shr_m r / 2 ^ Zpos p.
Proof.
  intros H. rewrite iter_pos_iter.
  induction p as [|p IH] using Pos.peano_ind.
  - cbn [Pos.iter]. rewrite shr_1_m by assumption. reflexivity.
  - rewrite Pos.iter_succ, shr_1_m.
    + rewrite IH, Pos2Z.inj_succ, Z.pow_succ_r by lia.
      rewrite Z.div_div by lia. f_equal. lia.
    + rewrite IH. apply Z.div_pos; lia.
Qed.

Lemma shr_1_even (b : Z) :
  0 <= b -> shr_1 (Build_shr_record (2 * b) false false) = Build_shr_record b false false.
Proof. destruct b; intros; try lia; reflexivity. Qed.

Lemma shr_iter_exact (p : positive) (a : Z) :
  0 <= a ->
  iter_pos shr_1 p (Build_shr_record (a * 2 ^ Zpos p) false false)
    = Build_shr_record a false false.
Proof.
  intros Ha. rewrite iter_pos_iter. revert a Ha.
  induction p as [|p IH] using Pos.peano_ind; intros a Ha.
  - cbn [Pos.iter]. replace (a * 2 ^ 1) with (2 * a) by lia. apply shr_1_even, Ha.
  - rewrite Pos.iter_succ_r, Pos2Z.inj_succ, Z.pow_succ_r by lia.
    replace (a * (2 * 2 ^ Zpos p)) with (2 * (a * 2 ^ Zpos p)) by lia.
    rewrite shr_1_even by nia. apply IH, Ha.
Qed.

Lemma shr_record_of_loc_m (m : Z) (l : location) : shr_m (shr_record_of_loc m l) = m.
Proof. destruct l as [|[| |]]; reflexivity. Qed.

(** The shift that brings a mantissa to the format: where it stops and
    what is left of the mantissa. *)
Lemma shr_fexp_spec (m e : Z) (l : location) :
  0 <= m ->
  snd (shr_fexp m e l) = Z.max e (fexp (Zdigits2 m + e)) /\
  shr_m (fst (shr_fexp m e l)) = m / 2 ^ (snd (shr_fexp m e l) - e).
Proof.
  intros Hm. unfold SpecFloat.shr_fexp, shr.
  destruct (fexp (Zdigits2 m + e) - e) as [|p|p] eqn:E; cbn [fst snd].
  - split; [lia|]. rewrite Z.sub_diag, Z.div_1_r. apply shr_record_of_loc_m.
  - split; [lia|]. rewrite shr_iter_m by (rewrite shr_record_of_loc_m; exact Hm).
    rewrite shr_record_of_loc_m. f_equal. f_equal. lia.
  - split; [lia|]. rewrite Z.sub_diag, Z.div_1_r. apply shr_record_of_loc_m.
Qed.

Lemma round_nearest_even_bounds (m : Z) (l : location) :
  0 <= m -> m <= round_nearest_even m l <= m + 1.
Proof.
  intros Hm. destruct l as [|[| |]]; cbn; try lia. destruct (Z.even m); lia.
Qed.

(** A finite result of a rounding has a mantissa of 53 bits at most and an
    exponent of 971 at most. *)
Lemma binary_round_aux_bounded (s s' : bool) (mx ex : Z) (lx : location)
      (m' : positive) (e' : Z) :
  0 <= mx ->
  binary_round_aux s mx ex lx = S754_finite s' m' e' ->
  Zpos m' < 2 ^ 53 /\ e' <= 971.
Proof.
  intros Hmx. unfold SpecFloat.binary_round_aux.
  pose proof (shr_fexp_spec mx ex lx Hmx) as [He1 Hm1].
  destruct (shr_fexp mx ex lx) as [mrs1 e1]. cbn [fst snd] in He1, Hm1.
  set (m1 := round_nearest_even (shr_m mrs1) (loc_of_shr_record mrs1)).
  assert (H0 : 0 <= shr_m mrs1).
  { rewrite Hm1. apply Z.div_pos; [lia|]. apply Z.pow_pos_nonneg; lia. }
  assert (H1 : 0 <= m1).
  { pose proof (round_nearest_even_bounds _ (loc_of_shr_record mrs1) H0).
    subst m1. lia. }
  pose proof (shr_fexp_spec m1 e1 loc_Exact H1) as [He2 Hm2].
  destruct (shr_fexp m1 e1 loc_Exact) as [mrs2 e2]. cbn [fst snd] in He2, Hm2.
  destruct (shr_m mrs2) as [|q|q] eqn:Eq; try discriminate.
  destruct (Z.leb_spec e2 (F64.emax - F64.prec)) as [Hle|]; [|discriminate].
  intros H. injection H as _ <- <-. split; [|exact Hle].
  rewrite Hm2. pose proof (Zdigits2_gt m1 H1) as Hd.
  pose proof (Zdigits2_nonneg m1) as Hd0. rewrite fexp_eq in He2.
  set (n := e2 - e1) in *. set (d := Zdigits2 m1) in *.
  assert (Hn : 0 <= n) by lia.
  assert (Hpow : 2 ^ d <= 2 ^ (n + 53)) by (apply Z.pow_le_mono_r; lia).
  rewrite Z.pow_add_r in Hpow by lia.
  apply Z.div_lt_upper_bound; [apply Z.pow_pos_nonneg; lia | lia].
Qed.

(** A rounding does not overflow on a number below [2^1022]. *)
Lemma binary_round_aux_small (s : bool) (mx ex : Z) (lx : location) :
  0 <= mx -> ex <= 971 -> Zdigits2 mx + ex <= 1022 ->
  F64.is_infinity (binary_round_aux s mx ex lx) = false.
Proof.
  intros Hmx Hex Hdx. unfold SpecFloat.binary_round_aux.
  pose proof (shr_fexp_spec mx ex lx Hmx) as [He1 Hm1].
  destruct (shr_fexp mx ex lx) as [mrs1 e1]. cbn [fst snd] in He1, Hm1.
  set (m1 := round_nearest_even (shr_m mrs1) (loc_of_shr_record mrs1)).
  rewrite fexp_eq in He1.
  assert (Hpow : 0 < 2 ^ (e1 - ex)) by (apply Z.pow_pos_nonneg; lia).
  assert (H0 : 0 <= shr_m mrs1) by (rewrite Hm1; apply Z.div_pos; lia).
  pose proof (round_nearest_even_bounds _ (loc_of_shr_record mrs1) H0) as Hr.
  fold m1 in Hr.
  assert (Hlt : shr_m mrs1 < 2 ^ (1022 - e1)).
  { rewrite Hm1. apply Z.div_lt_upper_bound; [exact Hpow|].
    rewrite <- Z.pow_add_r by lia.
    pose proof (Zdigits2_gt mx Hmx).
    assert (2 ^ Zdigits2 mx <= 2 ^ (e1 - ex + (1022 - e1)))
      by (apply Z.pow_le_mono_r; lia).
    lia. }
  assert (Hd1 : Zdigits2 m1 <= 1023 - e1).
  { apply Zdigits2_le; [lia|]. split; [lia|].
    replace (1023 - e1) with (Z.succ (1022 - e1)) by lia.
    rewrite Z.pow_succ_r by lia. lia. }
  assert (H1 : 0 <= m1) by lia.
  pose proof (shr_fexp_spec m1 e1 loc_Exact H1) as [He2 _].
  destruct (shr_fexp m1 e1 loc_Exact) as [mrs2 e2]. cbn [fst snd] in He2.
  rewrite fexp_eq in He2.
  destruct (shr_m mrs2); try reflexivity.
  destruct (Z.leb_spec e2 (F64.emax - F64.prec)) as [|Hgt]; [reflexivity|].
  exfalso. unfold F64.emax, F64.prec in Hgt. lia.
Qed.

(** A rounding neither changes nor overflows on a number the format holds. *)
Lemma binary_round_aux_exact (s : bool) (m : positive) (j ex : Z) :
  Zpos m < 2 ^ 53 -> 0 <= j -> -1074 <= ex + j <= 971 ->
  F64.is_infinity (binary_round_aux s (Zpos m * 2 ^ j) ex loc_Exact) = false.
Proof.
  intros Hm Hj Hex.
  assert (Hdm : Zpos (digits2_pos m) <= 53)
    by (apply (Zdigits2_le (Zpos m) 53); lia).
  assert (Hshift : forall i, 0 <= i -> exists q, Zpos m * 2 ^ i = Zpos q).
  { intros i Hi. assert (0 < 2 ^ i) by (apply Z.pow_pos_nonneg; lia).
    destruct (Zpos m * 2 ^ i) as [|q|q] eqn:E; [lia | eauto | lia]. }
  unfold SpecFloat.binary_round_aux, SpecFloat.shr_fexp, shr.
  rewrite Zdigits2_shift by exact Hj. cbn [shr_record_of_loc].
  set (d := Zpos (digits2_pos m)) in *.
  destruct (fexp (d + j + ex) - ex) as [|p|p] eqn:En;
    rewrite fexp_eq in En.
  - cbn [loc_of_shr_record shr_m round_nearest_even].
    rewrite Zdigits2_shift by exact Hj. fold d. rewrite fexp_eq.
    replace (Z.max (d + j + ex - 53) (-1074) - ex) with 0 by lia.
    cbn [shr_record_of_loc shr_m]. destruct (Hshift j Hj) as [q ->].
    destruct (Z.leb_spec ex (F64.emax - F64.prec)) as [|Hgt]; [reflexivity|].
    exfalso. unfold F64.emax, F64.prec in Hgt. lia.
  - assert (Hp : Zpos p <= j) by lia.
    replace (Zpos m * 2 ^ j) with ((Zpos m * 2 ^ (j - Zpos p)) * 2 ^ Zpos p)
      by (rewrite <- Z.mul_assoc, <- Z.pow_add_r by lia; do 2 f_equal; lia).
    destruct (Hshift (j - Zpos p)) as [q Hq]; [lia|].
    rewrite shr_iter_exact by lia.
    cbn [loc_of_shr_record shr_m round_nearest_even].
    rewrite Zdigits2_shift by lia. fold d. rewrite fexp_eq.
    replace (Z.max (d + (j - Zpos p) + (ex + Zpos p) - 53) (-1074) - (ex + Zpos p))
      with 0 by lia.
    cbn [shr_record_of_loc shr_m]. rewrite Hq.
    destruct (Z.leb_spec (ex + Zpos p) (F64.emax - F64.prec)) as [|Hgt];
      [reflexivity|].
    exfalso. unfold F64.emax, F64.prec in Hgt. lia.
  - cbn [loc_of_shr_record shr_m round_nearest_even].
    rewrite Zdigits2_shift by exact Hj. fold d. rewrite fexp_eq.
    destruct (Z.max (d + j + ex - 53) (-1074) - ex) as [|p'|p'] eqn:En';
      try discriminate.
    cbn [shr_record_of_loc shr_m]. destruct (Hshift j Hj) as [q ->].
    destruct (Z.leb_spec ex (F64.emax - F64.prec)) as [|Hgt]; [reflexivity|].
    exfalso. unfold F64.emax, F64.prec in Hgt. lia.
Qed.

(** The quotient by 100 that the division rounds: an integer quotient of
    the dividend scaled by a power of two. *)
Lemma div_core_100 (P : positive) :
  exists sh q r lz,
    SFdiv_core_binary F64.prec F64.emax (Zpos P) 0 100 0 = (q, - sh, lz) /\
    0 <= sh /\ Zpos P * 2 ^ sh = 100 * q + r /\ 0 <= r < 100 /\
    (r = 0 -> lz = loc_Exact).
Proof.
  unfold SFdiv_core_binary.
  set (e' := Z.min (fexp (Zdigits2 (Zpos P) + 0 - (Zdigits2 100 + 0))) (0 - 0)).
  assert (He' : e' <= 0) by (subst e'; lia).
  set (m' := match 0 - 0 - e' with
             | 0 => Zpos P
             | Zpos _ => Z.shiftl (Zpos P) (0 - 0 - e')
             | Zneg _ => 0
             end).
  assert (Hm' : m' = Zpos P * 2 ^ (- e')).
  { subst m'. destruct (0 - 0 - e') as [|x|x] eqn:E.
    - replace (- e') with 0 by lia. lia.
    - rewrite Z.shiftl_mul_pow2 by lia. do 2 f_equal. lia.
    - lia. }
  pose proof (Z_div_mod m' 100 eq_refl) as Hdiv.
  destruct (Z.div_eucl m' 100) as [q r]. destruct Hdiv as [Hq Hr].
  exists (- e'), q, r, (new_location 100 r). repeat split; try lia.
  - rewrite Z.opp_involutive. reflexivity.
  - intros ->. reflexivity.
Qed.

Lemma div_half_even_nearest (N D : Z) :
  0 <= N -> 0 < D ->
  0 <= div_half_even N D <= N / D + 1 /\
  Z.abs (2 * N - 2 * div_half_even N D * D) <= D /\
  (Z.abs (2 * N - 2 * div_half_even N D * D) = D ->
   Z.even (div_half_even N D) = true).
Proof.
  intros HN HD. unfold div_half_even.
  pose proof (Z.div_mod N D ltac:(lia)) as Hdm.
  pose proof (Z.mod_pos_bound N D HD) as Hr.
  assert (Hq : 0 <= N / D) by (apply Z.div_pos; lia).
  set (q := N / D) in *. set (r := N mod D) in *.
  destruct (Z.compare_spec (2 * r) D) as [E|E|E].
  - destruct (Z.even q) eqn:Ev.
    + repeat split; try lia. intros _. exact Ev.
    + repeat split; try lia.
      intros _. rewrite Z.add_1_r, Z.even_succ, <- Z.negb_even, Ev. reflexivity.
  - repeat split; lia.
  - repeat split; lia.
Qed.

(** Rounding a float of the format to two decimals never overflows. *)
Lemma float_round_2_ok (s : bool) (m : positive) (e : Z) :
  Zpos m < 2 ^ 53 -> e <= 971 ->
  float_round (S754_finite s m e) 2
    = Ok (float_of_decimal s (decimal_digits m e 2) 2).
Proof.
  intros Hm He. unfold float_round. cbn [Z.gtb Z.ltb Z.compare Pos.compare Pos.compare_cont].
  enough (H : F64.is_infinity (float_of_decimal s (decimal_digits m e 2) 2) = false)
    by (destruct (float_of_decimal s (decimal_digits m e 2) 2);
        try reflexivity; discriminate).
  unfold float_of_decimal.
  destruct (decimal_digits m e 2) as [|P|P] eqn:Ek; try reflexivity.
  change (0 <=? 2) with true. cbv iota.
  change (Z.to_pos (10 ^ 2)) with 100%positive.
  unfold F64.div, SFdiv. rewrite xorb_false_r.
  destruct (div_core_100 P) as (sh & q & r & lz & -> & Hsh & Heq & Hr & Hlz).
  unfold decimal_digits in Ek. change (0 <=? 2) with true in Ek. cbv iota in Ek.
  change (10 ^ 2) with 100 in Ek.
  assert (Hpsh : 0 < 2 ^ sh) by (apply Z.pow_pos_nonneg; lia).
  destruct (Z.leb_spec 0 e) as [Hpos|Hneg].
  - (* an integer: its decimal is itself *)
    assert (Hk : Zpos P = Zpos m * 2 ^ e * 100).
    { rewrite <- Ek. unfold div_half_even.
      change (1 * 1) with 1. rewrite Z.div_1_r, Z.mod_1_r. reflexivity. }
    assert (Hq : q = Zpos m * 2 ^ (e + sh) /\ r = 0).
    { rewrite Z.pow_add_r by lia. nia. }
    destruct Hq as [-> ->]. rewrite Hlz by reflexivity.
    apply binary_round_aux_exact; lia.
  - (* below 2^53: far from the largest float *)
    assert (Hpe : 0 < 2 ^ (- e)) by (apply Z.pow_pos_nonneg; lia).
    pose proof (div_half_even_nearest (Zpos m * 1 * 100) (2 ^ (- e) * 1)
                  ltac:(lia) ltac:(lia)) as [[_ Hk] _].
    rewrite Ek in Hk.
    assert (Zpos m * 1 * 100 / (2 ^ (- e) * 1) <= Zpos m * 100).
    { rewrite Z.mul_1_r, Z.mul_1_r. apply Z.div_le_upper_bound; [lia | nia]. }
    assert (HP : Zpos P < 2 ^ 60) by (change (2 ^ 53) with 9007199254740992 in Hm;
                                      change (2 ^ 60) with 1152921504606846976; lia).
    assert (Hq0 : 0 <= q) by nia.
    apply binary_round_aux_small; [exact Hq0 | lia |].
    enough (Zdigits2 q <= 60 + sh) by lia.
    apply Zdigits2_le; [lia|]. split; [exact Hq0|].
    rewrite Z.pow_add_r by lia. nia.
Qed.

Lemma mul_bounded (f g : spec_float) (s : bool) (m : positive) (e : Z) :
  F64.mul f g = S754_finite s m e -> Zpos m < 2 ^ 53 /\ e <= 971.
Proof.
  unfold F64.mul. destruct f, g; cbn [SFmul]; try discriminate.
  apply binary_round_aux_bounded. lia.
Qed.

End Rounding64.


(** ** The distance of a pulse *)

Lemma half_speed_eq :
  py_truediv SPEEDOFSOUND (PyInt 2) = Ok (PyFloat half_speed) /\
  half_speed = F64.of_Z 17150.
Proof.
  split; vm_compute; reflexivity.
Qed.

Lemma decimal_digits_nearest (m : positive) (e : Z) :
  nearest_hundredth m e (decimal_digits m e 2).
Proof.
  unfold nearest_hundredth, decimal_digits.
  change (0 <=? 2) with true. cbv iota. change (10 ^ 2) with 100.
  set (N := 100 * Zpos m * 2 ^ Z.max e 0). set (D := 2 ^ Z.max (- e) 0).
  assert (Hnum : Zpos m * (if 0 <=? e then 2 ^ e else 1) * 100 = N).
  { subst N. destruct (Z.leb_spec 0 e).
    - rewrite Z.max_l by lia. lia.
    - rewrite Z.max_r by lia. change (2 ^ 0) with 1. lia. }
  assert (Hden : (if 0 <=? e then 1 else 2 ^ (- e)) * 1 = D).
  { subst D. destruct (Z.leb_spec 0 e).
    - rewrite Z.max_r by lia. reflexivity.
    - rewrite Z.max_l by lia. lia. }
  rewrite Hnum, Hden.
  assert (0 < 2 ^ Z.max e 0) by (apply Z.pow_pos_nonneg; lia).
  assert (HD : 0 < D) by (subst D; apply Z.pow_pos_nonneg; lia).
  assert (HN : 0 <= N) by (subst N; nia).
  pose proof (div_half_even_nearest N D HN HD) as [[H0 _] [H1 H2]].
  auto.
Qed.

(** The nearest hundredth is unique: of two candidates one unit apart both
    would be ties, and only one of them is even. *)
Lemma nearest_hundredth_unique (m : positive) (e k k' : Z) :
  nearest_hundredth m e k -> nearest_hundredth m e k' -> k = k'.
Proof.
  unfold nearest_hundredth.
  set (N := 100 * Zpos m * 2 ^ Z.max e 0). set (D := 2 ^ Z.max (- e) 0).
  assert (HD : 0 < D) by (subst D; apply Z.pow_pos_nonneg; lia).
  clearbody N D. cbv zeta.
  assert (Hstep : forall a b, a < b ->
            Z.abs (2 * N - 2 * a * D) <= D ->
            (Z.abs (2 * N - 2 * a * D) = D -> Z.even a = true) ->
            Z.abs (2 * N - 2 * b * D) <= D ->
            (Z.abs (2 * N - 2 * b * D) = D -> Z.even b = true) -> False).
  { intros a b Hab Ha Ea Hb Eb.
    assert (Hmul : (a + 1) * D <= b * D) by (apply Z.mul_le_mono_nonneg_r; lia).
    assert (Hb1 : b = a + 1) by nia.
    subst b. rewrite Z.add_1_r, Z.even_succ, <- Z.negb_even in Eb.
    rewrite Ea in Eb by lia.
    assert (Z.abs (2 * N - 2 * Z.succ a * D) = D) by lia.
    specialize (Eb H). discriminate. }
  intros (_ & Hk & Ek) (_ & Hk' & Ek').
  destruct (Z.lt_trichotomy k k') as [Hlt | [Heq | Hgt]]; [| exact Heq |].
  - exfalso. exact (Hstep k k' Hlt Hk Ek Hk' Ek').
  - exfalso. exact (Hstep k' k Hgt Hk' Ek' Hk Ek).
Qed.

Lemma calculateDistance_float (pulseDuration : spec_float) :
  ThreadedLoop.calculateDistance (PyFloat pulseDuration)
    = Ok (PyFloat match F64.mul half_speed pulseDuration with
                  | S754_finite s m e => float_of_decimal s (decimal_digits m e 2) 2
                  | x => x
                  end).
Proof.
  unfold ThreadedLoop.calculateDistance. cbn [is_None].
  rewrite (proj1 half_speed_eq). cbn [rbind py_mul py_round].
  destruct (F64.mul half_speed pulseDuration) as [s|s| |s m e] eqn:E;
    try reflexivity.
  apply mul_bounded in E. destruct E as [Hm He].
  rewrite float_round_2_ok by assumption. reflexivity.
Qed.

(** C5. For every pulse duration, a float, [calculateDistance] returns a
    float, and that float is [(SPEEDOFSOUND / 2) * pulseDuration] rounded to
    two decimal places, the only value this rounding allows; SPEEDOFSOUND is
    the module constant 34300, so that the factor is 17150.0. A pulse of one
    millisecond gives 17.15. *)
Theorem calculateDistance_rounds (pulseDuration : spec_float) :
  SPEEDOFSOUND = PyInt 34300 /\
  half_speed = F64.of_Z 17150 /\
  (exists distance,
     ThreadedLoop.calculateDistance (PyFloat pulseDuration) = Ok (PyFloat distance) /\
     rounded_to_2_decimals (F64.mul half_speed pulseDuration) distance /\
     forall r, rounded_to_2_decimals (F64.mul half_speed pulseDuration) r ->
               r = distance) /\
  ThreadedLoop.calculateDistance (PyFloat one_millisecond) = Ok (PyFloat f17_15).
Proof.
  split; [reflexivity|]. split; [exact (proj2 half_speed_eq)|]. split.
  - rewrite calculateDistance_float. eexists. split; [reflexivity|].
    unfold rounded_to_2_decimals.
    destruct (F64.mul half_speed pulseDuration) as [s|s| |s m e]; auto.
    split.
    + exists (decimal_digits m e 2). split; [apply decimal_digits_nearest | reflexivity].
    + intros r (k & Hk & ->). f_equal.
      exact (nearest_hundredth_unique m e _ _ Hk (decimal_digits_nearest m e)).
  - vm_compute. reflexivity.
Qed.

Lemma calculateDistance_rounds_witness :
  rounded_to_2_decimals (F64.mul half_speed one_millisecond) f17_15 /\
  exists distance,
    ThreadedLoop.calculateDistance (PyFloat one_millisecond) = Ok (PyFloat distance) /\
    f17_15 = distance.
Proof.
  assert (H : rounded_to_2_decimals (F64.mul half_speed one_millisecond) f17_15).
  { exists 1715. split; [|vm_compute; reflexivity].
    vm_compute. repeat split; discriminate. }
  split; [exact H|].
  destruct (proj1 (proj2 (proj2 (calculateDistance_rounds one_millisecond))))
    as (distance & Hd & _ & Huniq).
  exists distance. split; [exact Hd | exact (Huniq f17_15 H)].
Defined.

(** ** The sensor thread *)

Section Polling.

Variable hw : ThreadedLoop.gpio.

Import ThreadedLoop.

Lemma poll_more_fuel (level : bool) (fuel extra n : nat) (stamp : option pyval)
      (r : nat * option pyval) :
  poll hw level fuel n stamp = Some r ->
  poll hw level (fuel + extra) n stamp = Some r.
Proof.
  revert n stamp. induction fuel as [|fuel IH]; intros n stamp; cbn; [discriminate|].
  destruct (Bool.eqb (echo hw n) level); [apply IH | auto].
Qed.

(** A polling loop that ends has just read the other level. *)
Lemma poll_exit (level : bool) (fuel n n' : nat) (stamp stamp' : option pyval) :
  poll hw level fuel n stamp = Some (n', stamp') ->
  (n < n')%nat /\ echo hw (n' - 1) = negb level.
Proof.
  revert n stamp. induction fuel as [|fuel IH]; intros n stamp; cbn; [discriminate|].
  destruct (Bool.eqb (echo hw n) level) eqn:E.
  - intros H. apply IH in H. destruct H as [Hlt Hecho]. split; [lia | exact Hecho].
  - intros H. injection H as <- <-. split; [lia|].
    replace (S n - 1)%nat with n by lia.
    destruct (echo hw n), level; cbn in *; congruence.
Qed.

(** The stamp a polling loop leaves is the one it found or one of the clock. *)
Lemma poll_stamp (level : bool) (fuel n n' : nat) (stamp stamp' : option pyval) :
  poll hw level fuel n stamp = Some (n', stamp') ->
  unbound_or_float stamp = true -> unbound_or_float stamp' = true.
Proof.
  revert n stamp. induction fuel as [|fuel IH]; intros n stamp; cbn; [discriminate|].
  destruct (Bool.eqb (echo hw n) level).
  - intros H _. apply IH in H; [exact H | reflexivity].
  - intros H. injection H as _ <-. auto.
Qed.

(** A polling loop ends at the latest on the first read of the other level. *)
Lemma poll_finds (level : bool) (i n : nat) (stamp : option pyval) :
  (n <= i)%nat ->
  echo hw i = negb level ->
  exists n' stamp',
    poll hw level (S (i - n)) n stamp = Some (n', stamp') /\ (n' <= S i)%nat.
Proof.
  intros Hle Hecho. remember (i - n)%nat as k eqn:Hk.
  revert n stamp Hle Hk. induction k as [|k IH]; intros n stamp Hle Hk.
  - assert (n = i) by lia. subst n. cbn. rewrite Hecho.
    destruct level; cbn; eauto.
  - cbn [poll]. destruct (Bool.eqb (echo hw n) level).
    + destruct (IH (S n) (Some (PyFloat (time hw (S n))))) as (n' & st' & Hp & Hn');
        [lia | lia |]. eauto.
    + exists (S n), stamp. split; [reflexivity | lia].
Qed.

Lemma iteration_ends_iff (self : t) :
  (exists fuel out, iteration hw fuel self = Some out) <->
  (exists i j, (reads self <= i)%nat /\ (i < j)%nat /\
               echo hw i = true /\ echo hw j = false).
Proof.
  unfold iteration. cbn [reads makePulse pulse_start pulse_end]. split.
  - intros (fuel & out & H).
    destruct (poll hw false fuel (reads self) (pulse_start self))
      as [[n1 ps]|] eqn:H1; [|discriminate].
    destruct (poll hw true fuel n1 (pulse_end self)) as [[n2 pe]|] eqn:H2;
      [|discriminate].
    apply poll_exit in H1, H2. cbn [negb] in H1, H2.
    exists (n1 - 1)%nat, (n2 - 1)%nat. repeat split; try tauto; lia.
  - intros (i & j & Hi & Hij & Hup & Hdown).
    destruct (poll_finds false i (reads self) (pulse_start self) Hi Hup)
      as (n1 & ps & H1 & Hn1).
    destruct (poll_finds true j n1 (pulse_end self)) as (n2 & pe & H2 & Hn2);
      [lia | exact Hdown |].
    exists (S (i - reads self) + S (j - n1))%nat.
    rewrite (poll_more_fuel _ _ (S (j - n1)) _ _ _ H1).
    rewrite Nat.add_comm.
    rewrite (poll_more_fuel _ _ (S (i - reads self)) _ _ _ H2).
    eauto.
Qed.

(** A turn that ends has published a float or has read a local that no
    polling loop had assigned. *)
Lemma iteration_outcome (fuel : nat) (self : t) (out : result t) :
  unbound_or_float (pulse_start self) = true ->
  unbound_or_float (pulse_end self) = true ->
  iteration hw fuel self = Some out ->
  out = Raise UnboundLocalError \/
  exists self' distance,
    out = Ok self' /\ _current_distance self' = PyFloat distance /\
    unbound_or_float (pulse_start self') = true /\
    unbound_or_float (pulse_end self') = true.
Proof.
  intros Hs He. unfold iteration. cbn [reads makePulse pulse_start pulse_end trig_out].
  destruct (poll hw false fuel (reads self) (pulse_start self))
    as [[n1 ps]|] eqn:H1; [|discriminate].
  destruct (poll hw true fuel n1 (pulse_end self)) as [[n2 pe]|] eqn:H2;
    [|discriminate].
  apply poll_stamp in H1; [|exact Hs]. apply poll_stamp in H2; [|exact He].
  intros H. injection H as <-.
  destruct ps as [[| |a|]|]; try discriminate; cbn [load rbind]; [|auto].
  destruct pe as [[| |b|]|]; try discriminate; cbn [load rbind]; [|auto].
  cbn [calculate_pulse_duration is_None orb py_sub rbind].
  rewrite calculateDistance_float. cbn [rbind]. right.
  eexists. eexists. split; [reflexivity|]. cbn. auto.
Qed.

End Polling.

Lemma poll_stuck_low (fuel n : nat) (stamp : option pyval) :
  ThreadedLoop.poll stuck_low false fuel n stamp = None.
Proof.
  revert n stamp. induction fuel as [|fuel IH]; intros n stamp; cbn; [reflexivity|].
  apply IH.
Qed.

(** C6, as the code has it. A turn of the sensor thread has no timeout and no
    error of its own for a missing edge: it ends exactly when the ECHO pin
    reads 1 at some read and 0 at a later one, and otherwise polls for ever.
    A turn that ends has published a float as the current distance, or has
    raised UnboundLocalError because a polling loop ended on its first read
    and left its stamp unassigned. *)
Theorem measurement_ends_iff (hw : ThreadedLoop.gpio) (self : ThreadedLoop.t) :
  ((exists fuel out, ThreadedLoop.iteration hw fuel self = Some out) <->
   (exists i j, (ThreadedLoop.reads self <= i)%nat /\ (i < j)%nat /\
                ThreadedLoop.echo hw i = true /\ ThreadedLoop.echo hw j = false)) /\
  (forall fuel out,
     unbound_or_float (ThreadedLoop.pulse_start self) = true ->
     unbound_or_float (ThreadedLoop.pulse_end self) = true ->
     ThreadedLoop.iteration hw fuel self = Some out ->
     out = Raise UnboundLocalError \/
     exists self' distance,
       out = Ok self' /\ ThreadedLoop._current_distance self' = PyFloat distance).
Proof.
  split; [apply iteration_ends_iff|].
  intros fuel out Hs He H.
  destruct (iteration_outcome hw fuel self out Hs He H)
    as [-> | (self' & distance & -> & Hd & _)]; [auto|].
  right. eauto.
Qed.

Lemma measurement_ends_iff_witness :
  (exists i j, (ThreadedLoop.reads ThreadedLoop.__init__ <= i)%nat /\ (i < j)%nat /\
               ThreadedLoop.echo one_pulse i = true /\
               ThreadedLoop.echo one_pulse j = false) /\
  (exists fuel out,
     ThreadedLoop.iteration one_pulse fuel ThreadedLoop.__init__ = Some out).
Proof.
  assert (H : exists i j, (ThreadedLoop.reads ThreadedLoop.__init__ <= i)%nat /\
                          (i < j)%nat /\
                          ThreadedLoop.echo one_pulse i = true /\
                          ThreadedLoop.echo one_pulse j = false).
  { exists 3%nat, 10%nat. cbn. repeat split; lia. }
  split; [exact H|].
  exact (proj2 (proj1 (measurement_ends_iff one_pulse ThreadedLoop.__init__)) H).
Defined.

(** C6 as stated fails: with the ECHO pin stuck low the measurement step never
    ends, and so never fails either. *)
Lemma measurement_blocks_forever :
  ~ (exists fuel out,
       ThreadedLoop.iteration stuck_low fuel ThreadedLoop.__init__ = Some out).
Proof.
  intros (fuel & out & H). unfold ThreadedLoop.iteration in H.
  rewrite poll_stuck_low in H. discriminate.
Qed.

(** * Further properties of the code *)

(** ** The attributes of the escalator *)

Lemma compareAndIncrease_status (measurement : pyval) (self : t) :
  _status (snd (compareAndIncrease measurement self)) = _status self.
Proof.
  exact (proj1 (proj2 (compareAndIncrease_frame measurement self))).
Qed.

(** X1. In every reachable state the attribute [_status] is still the None
    the constructor wrote (the status is computed from the count, never
    stored), and the last measurement is the int 0 of the constructor or a
    float. *)
Theorem reachable_attributes (s : t) :
  reachable s ->
  _status s = PyNone /\
  (_lastMeasurement s = PyInt 0 \/ type_is_float (_lastMeasurement s) = true).
Proof.
  intros H. split; [|exact (reachable_lastMeasurement s H)].
  induction H as [| d1 d2 d3 d4 s _ IH | s _ IH].
  - reflexivity.
  - rewrite body_state.
    destruct (fst (compareAndIncrease d1 s)); [destruct (is_None d3)|];
      try (rewrite compareAndIncrease_status; exact IH).
    rewrite setLastMeasurement_unfold.
    destruct (type_is_float d4); cbn [snd _status];
      rewrite compareAndIncrease_status; exact IH.
  - rewrite decay_unfold. destruct (escalatorCount s >=? 0); exact IH.
Qed.

Lemma reachable_attributes_witness :
  reachable (snd (MainLoop.iteration f100 __init__)) /\
  _status (snd (MainLoop.iteration f100 __init__)) = PyNone.
Proof.
  assert (H : reachable (snd (MainLoop.iteration f100 __init__)))
    by exact (reach_turn f100 f100 f100 f100 __init__ reach_init).
  split; [exact H|].
  exact (proj1 (reachable_attributes _ H)).
Defined.

(** ** Turns of the main loop *)

Lemma sensor_value_cases (d : pyval) :
  sensor_value d = true -> d = PyNone \/ exists f, d = PyFloat f.
Proof.
  destruct d; cbn; try discriminate; eauto.
Qed.

Lemma compareAndIncrease_returns (measurement : pyval) (self : t) :
  sensor_value measurement = true ->
  _lastMeasurement self = PyInt 0 \/ type_is_float (_lastMeasurement self) = true ->
  fst (compareAndIncrease measurement self) = Ok tt.
Proof.
  intros Hm Hl. rewrite compareAndIncrease_unfold.
  destruct (sensor_value_cases measurement Hm) as [-> | [f ->]]; [reflexivity|].
  destruct (detects_returns _ (PyFloat f) eq_refl Hl) as [b ->].
  destruct b; reflexivity.
Qed.

(** X2. In a reachable state a turn of the main loop raises nothing on what
    the sensor thread publishes: each read of [current_distance] is None or
    a float, and a read after one that was not None is not None either. *)
Theorem turn_returns (d1 d2 d3 d4 : pyval) (s : t) :
  reachable s ->
  sensor_value d1 = true -> sensor_value d3 = true -> sensor_value d4 = true ->
  (is_None d3 = false -> is_None d4 = false) ->
  exists r, fst (MainLoop.body d1 d2 d3 d4 s) = Ok r.
Proof.
  intros Hs H1 H3 H4 Hmono.
  pose proof (compareAndIncrease_returns d1 s H1 (reachable_lastMeasurement s Hs)) as Hc.
  unfold MainLoop.body, bind, get, ret.
  destruct (compareAndIncrease d1 s) as [res s1]. cbn [fst] in Hc. subst res.
  destruct (sensor_value_cases d3 H3) as [-> | [f3 ->]]; cbn [is_None negb].
  - cbn. eauto.
  - destruct (sensor_value_cases d4 H4) as [-> | [f4 ->]].
    + specialize (Hmono eq_refl). discriminate.
    + cbn. eauto.
Qed.

Lemma turn_returns_witness :
  reachable __init__ /\
  exists r, fst (MainLoop.body PyNone PyNone f100 f100 __init__) = Ok r.
Proof.
  split; [exact reach_init|].
  refine (turn_returns PyNone PyNone f100 f100 __init__ reach_init _ _ _ _);
    [reflexivity | reflexivity | reflexivity | intros H; exact H].
Defined.

Lemma detections_bounds (l : pyval) (ds : list pyval) :
  0 <= detections l ds <= Z.of_nat (List.length ds).
Proof.
  revert l. induction ds as [|d ds IH]; intros l; [cbn; lia|].
  cbn [detections List.length]. rewrite Nat2Z.inj_succ.
  destruct (is_None d).
  - specialize (IH l). lia.
  - specialize (IH d). destruct (qualifies l d) as [[|]|]; lia.
Qed.

Lemma last_recorded_kind (l : pyval) (ds : list pyval) :
  forallb sensor_value ds = true ->
  l = PyInt 0 \/ type_is_float l = true ->
  last_recorded l ds = PyInt 0 \/ type_is_float (last_recorded l ds) = true.
Proof.
  revert l. induction ds as [|d ds IH]; intros l Hds Hl; [exact Hl|].
  cbn in Hds. apply andb_true_iff in Hds. destruct Hds as [Hd Hds].
  cbn [last_recorded]. apply IH; [exact Hds|].
  destruct (sensor_value_cases d Hd) as [-> | [f ->]]; cbn; auto.
Qed.

(** X3. Turns of the main loop compose: on measurements that are each absent
    or a float, from a state whose last measurement is the initial 0 or a
    float, they return one report per measurement, add to the count one
    rider for each measurement that qualifies against the measurement
    recorded before it, and leave the last present measurement recorded; so
    [n] turns count [n] riders at most. *)
Theorem polls_count_detections (ds : list pyval) (self : t) :
  forallb sensor_value ds = true ->
  _lastMeasurement self = PyInt 0 \/ type_is_float (_lastMeasurement self) = true ->
  (exists rs, fst (MainLoop.polls ds self) = Ok rs /\
              List.length rs = List.length ds) /\
  snd (MainLoop.polls ds self)
    = Build (_status self)
            (escalatorCount self + detections (_lastMeasurement self) ds)
            (last_recorded (_lastMeasurement self) ds) /\
  escalatorCount self <= escalatorCount (snd (MainLoop.polls ds self))
    <= escalatorCount self + Z.of_nat (List.length ds).
Proof.
  intros Hds Hl.
  assert (Hmain :
    (exists rs, fst (MainLoop.polls ds self) = Ok rs /\
                List.length rs = List.length ds) /\
    snd (MainLoop.polls ds self)
      = Build (_status self)
              (escalatorCount self + detections (_lastMeasurement self) ds)
              (last_recorded (_lastMeasurement self) ds)).
  { revert self Hds Hl. induction ds as [|d ds IH]; intros self Hds Hl.
    - split; [exists []; auto|]. cbn. destruct self. cbn. f_equal. lia.
    - cbn in Hds. apply andb_true_iff in Hds. destruct Hds as [Hd Hds].
      cbn [MainLoop.polls detections last_recorded].
      destruct (sensor_value_cases d Hd) as [-> | [f ->]]; cbn [is_None].
      + unfold bind at 1 3. rewrite iteration_absent.
        destruct (IH self Hds Hl) as [(rs & Hrs & Hlen) Hst].
        unfold bind at 1 2. destruct (MainLoop.polls ds self) as [res s2].
        cbn [fst snd] in *. subst res. cbn [fst snd ret].
        split; [|exact Hst]. eexists. split; [reflexivity|]. cbn. lia.
      + destruct (detects_returns _ (PyFloat f) eq_refl Hl) as [b Hb].
        unfold bind at 1 3. rewrite (iteration_float f b self Hb). cbv zeta.
        set (s1 := Build (_status self)
                         (escalatorCount (if b then counted self else self))
                         (PyFloat f)).
        destruct (IH s1 Hds (or_intror eq_refl)) as [(rs & Hrs & Hlen) Hst].
        unfold bind at 1 2. destruct (MainLoop.polls ds s1) as [res s2].
        cbn [fst snd] in *. subst res. cbn [fst snd ret].
        split; [eexists; split; [reflexivity | cbn; lia]|].
        rewrite Hst. subst s1. cbn [_status _lastMeasurement escalatorCount _onEscalator].
        f_equal. rewrite <- detects_qualifies, Hb.
        destruct b; unfold counted, escalatorCount; cbn [_onEscalator]; lia. }
  destruct Hmain as [Hrs Hst]. split; [exact Hrs|]. split; [exact Hst|].
  rewrite Hst. cbn [escalatorCount _onEscalator].
  pose proof (detections_bounds (_lastMeasurement self) ds). unfold escalatorCount. lia.
Qed.

Lemma polls_count_detections_witness :
  forallb sensor_value [f100; PyNone; f97] = true /\
  snd (MainLoop.polls [f100; PyNone; f97] __init__) = Build PyNone 1 f97.
Proof.
  split; [reflexivity|].
  exact (proj1 (proj2 (polls_count_detections [f100; PyNone; f97] __init__
                         eq_refl (or_introl eq_refl)))).
Defined.

(** ** What the detection rule never counts, and what it counts first *)

Lemma sub_self (f : spec_float) :
  F64.sub f f = S754_zero false \/ F64.sub f f = S754_nan.
Proof.
  destruct f as [[|]|[|]| |s m e]; cbn; auto.
  left. unfold F64.sub. cbn [SFsub]. rewrite Z.sub_diag. reflexivity.
Qed.

Lemma SFcompare_antisym (f g : spec_float) (c : comparison) :
  SFcompare f g = Some c -> SFcompare g f = Some (CompOpp c).
Proof.
  destruct f as [s1|s1| |s1 m1 e1], g as [s2|s2| |s2 m2 e2]; cbn;
    try discriminate;
    try (destruct s1; intros H; injection H as <-; reflexivity);
    try (destruct s2; intros H; injection H as <-; reflexivity);
    try (destruct s1, s2; intros H; injection H as <-; reflexivity).
  intros H. injection H as <-. f_equal.
  rewrite (Z.compare_antisym e1 e2).
  pose proof (Pos.compare_cont_antisym m1 m2 Eq) as Hm. cbn [CompOpp] in Hm.
  rewrite <- Hm.
  destruct s1, s2, (e1 ?= e2); cbn [CompOpp]; try reflexivity;
    destruct (Pos.compare_cont Eq m1 m2); reflexivity.
Qed.

Lemma detects_false_when (l m : spec_float) :
  m = l \/ F64.is_nan m = true \/ F64.is_nan l = true \/ SFltb l m = true ->
  detects (PyFloat l) (PyFloat m) = Ok false.
Proof.
  unfold detects. cbn [py_sub rbind py_abs].
  intros [-> | [Hm | [Hl | Hlt]]].
  - destruct (sub_self l) as [-> | ->]; reflexivity.
  - destruct m; try discriminate. destruct l; reflexivity.
  - destruct l; try discriminate. reflexivity.
  - unfold SFltb in Hlt. destruct (SFcompare l m) as [[| |]|] eqn:E; try discriminate.
    apply SFcompare_antisym in E. cbn [CompOpp] in E.
    destruct (py_ge (PyFloat (SFabs (F64.sub l m))) DEVIATION) as [[|]|e] eqn:Hfar;
      cbn [rbind]; try reflexivity.
    + unfold py_gt, py_compare, rbind. rewrite E. reflexivity.
    + discriminate Hfar.
Qed.

(** X4. Against a recorded float, [compareAndIncrease] counts nobody and
    changes nothing when the measurement is the recorded one again, when it
    is larger (the object moved away, by however much), and when either of
    the two is a NaN. *)
Theorem never_counts (self : t) (l m : spec_float) :
  _lastMeasurement self = PyFloat l ->
  m = l \/ F64.is_nan m = true \/ F64.is_nan l = true \/ SFltb l m = true ->
  compareAndIncrease (PyFloat m) self = (Ok tt, self).
Proof.
  intros Hl H. rewrite compareAndIncrease_unfold, Hl. cbn [is_None].
  rewrite (detects_false_when l m H). reflexivity.
Qed.

Lemma never_counts_witness :
  _lastMeasurement (seen 2 f100) = f100 /\
  SFltb (F64.of_Z 100) (S754_infinity false) = true /\
  compareAndIncrease f100 (seen 2 f100) = (Ok tt, seen 2 f100) /\
  compareAndIncrease (PyFloat (S754_infinity false)) (seen 2 f100)
    = (Ok tt, seen 2 f100) /\
  compareAndIncrease (PyFloat S754_nan) (seen 2 f100) = (Ok tt, seen 2 f100).
Proof.
  split; [reflexivity|]. split; [reflexivity|]. split; [|split].
  - exact (never_counts (seen 2 f100) (F64.of_Z 100) (F64.of_Z 100) eq_refl
             (or_introl eq_refl)).
  - exact (never_counts (seen 2 f100) (F64.of_Z 100) (S754_infinity false) eq_refl
             (or_intror (or_intror (or_intror eq_refl)))).
  - exact (never_counts (seen 2 f100) (F64.of_Z 100) S754_nan eq_refl
             (or_intror (or_introl eq_refl))).
Defined.

Ltac compare_cases :=
  repeat match goal with
         | |- context [?a ?= ?b] => destruct (Z.compare_spec a b)
         end.

Lemma detects_from_zero_le (m : spec_float) :
  detects (PyInt 0) (PyFloat m) = py_le (PyFloat m) (PyInt (-2)).
Proof.
  unfold detects. cbn [py_sub]. change (int_to_float 0) with (Ok (S754_zero false)).
  cbn [rbind py_abs].
  destruct m as [[|]|[|]| |s mm e]; try reflexivity.
  unfold F64.sub. cbn [SFsub SFabs].
  unfold py_ge, py_gt, py_le, py_compare, DEVIATION, rbind, F64.compare_Z.
  cbn [cond_Zopp].
  destruct (Z.leb_spec 0 e) as [He|He].
  - assert (0 < 2 ^ e) by (apply Z.pow_pos_nonneg; lia).
    destruct s; cbn [cond_Zopp]; compare_cases; try reflexivity; exfalso; nia.
  - assert (0 < 2 ^ (- e)) by (apply Z.pow_pos_nonneg; lia).
    destruct s; cbn [cond_Zopp]; compare_cases; try reflexivity; exfalso; nia.
Qed.

(** X5. While the last measurement is still the int 0 of the constructor, a
    float measurement is counted exactly when it is at most -2: no distance
    at or above 0 is counted first, and a negative reading of 2 cm or more
    is. *)
Theorem first_measurement_counts (self : t) (m : spec_float) :
  _lastMeasurement self = PyInt 0 ->
  (snd (compareAndIncrease (PyFloat m) self) = counted self
   <-> py_le (PyFloat m) (PyInt (-2)) = Ok true) /\
  (snd (compareAndIncrease (PyFloat m) self) = self
   <-> py_le (PyFloat m) (PyInt (-2)) = Ok false).
Proof.
  intros Hl. rewrite compareAndIncrease_unfold, Hl. cbn [is_None].
  rewrite detects_from_zero_le.
  assert (Hne : counted self <> self).
  { intros H. apply (f_equal _onEscalator) in H. cbn in H. lia. }
  unfold py_le, py_compare, rbind.
  destruct (F64.compare_Z m (-2)) as [[| |]|]; cbn [snd];
    (split; split; intros H; try reflexivity; try discriminate;
     try (exfalso; apply Hne; congruence)).
Qed.

Lemma first_measurement_counts_witness :
  _lastMeasurement __init__ = PyInt 0 /\
  snd (compareAndIncrease (PyFloat (F64.of_Z (-5))) __init__) = counted __init__.
Proof.
  split; [reflexivity|].
  exact (proj2 (proj1 (first_measurement_counts __init__ (F64.of_Z (-5)) eq_refl))
           eq_refl).
Defined.

(** ** The wait and the loop of the decay thread *)

Lemma wait_clear (is_set : nat -> bool) (n k : nat) :
  (forall i, (i < n)%nat -> is_set (k + i)%nat = false) ->
  SimpleDecrease.wait is_set k n = ((k + n)%nat, n).
Proof.
  revert k. induction n as [|n IH]; intros k H; cbn.
  - f_equal. lia.
  - rewrite <- (Nat.add_0_r k) at 1. rewrite (H O) by lia.
    rewrite IH.
    + f_equal. lia.
    + intros i Hi. replace (S k + i)%nat with (k + S i)%nat by lia. apply H. lia.
Qed.

Lemma wait_set (is_set : nat -> bool) (n k i : nat) :
  (i < n)%nat ->
  (forall i', (i' < i)%nat -> is_set (k + i')%nat = false) ->
  is_set (k + i)%nat = true ->
  SimpleDecrease.wait is_set k n = (S (k + i), i).
Proof.
  revert k i. induction n as [|n IH]; intros k i Hi Hclear Hset; [lia|].
  cbn. destruct i as [|i].
  - rewrite Nat.add_0_r in Hset. rewrite Hset. f_equal. lia.
  - rewrite <- (Nat.add_0_r k) at 1. rewrite (Hclear O) by lia.
    rewrite (IH (S k) i).
    + f_equal. lia.
    + lia.
    + intros i' Hi'. replace (S k + i')%nat with (k + S i')%nat by lia.
      apply Hclear. lia.
    + replace (S k + i)%nat with (k + S i)%nat by lia. exact Hset.
Qed.

(** X6. The wait of the decay thread looks at the stop event before each
    second of sleep: while every look finds it clear it sleeps [n] seconds
    in [n] looks, and it returns at the first look that finds it set, having
    slept one second for each look before that one and none after. *)
Theorem wait_responsive (is_set : nat -> bool) (n k i : nat) :
  ((forall i', (i' < n)%nat -> is_set (k + i')%nat = false) ->
   SimpleDecrease.wait is_set k n = ((k + n)%nat, n)) /\
  ((i < n)%nat ->
   (forall i', (i' < i)%nat -> is_set (k + i')%nat = false) ->
   is_set (k + i)%nat = true ->
   SimpleDecrease.wait is_set k n = (S (k + i), i)).
Proof.
  split; [apply wait_clear | apply wait_set].
Qed.

Lemma wait_responsive_witness :
  SimpleDecrease.wait (set_from 3) 0 TRAVELTIME = (4%nat, 3%nat) /\
  SimpleDecrease.wait (fun _ => false) 0 TRAVELTIME = (15%nat, 15%nat).
Proof.
  split.
  - refine (proj2 (wait_responsive (set_from 3) TRAVELTIME 0 3) _ _ _).
    + unfold TRAVELTIME. lia.
    + intros i' Hi'. destruct i' as [|[|[|i']]]; try reflexivity. lia.
    + reflexivity.
  - refine (proj1 (wait_responsive (fun _ => false) TRAVELTIME 0 0) _).
    intros i' _. reflexivity.
Defined.

Lemma wait_looks_ge (is_set : nat -> bool) (n k : nat) :
  (k <= fst (SimpleDecrease.wait is_set k n))%nat.
Proof.
  revert k. induction n as [|n IH]; intros k; cbn; [lia|].
  destruct (is_set k); cbn; [lia|].
  specialize (IH (S k)). destruct (SimpleDecrease.wait is_set (S k) n). cbn in *. lia.
Qed.

Lemma decay_iteration (is_set : nat -> bool) (k : nat) (obj : t) :
  fst (SimpleDecrease.iteration is_set k obj)
    = (if escalatorCount obj >=? 0 then with_count obj 0 else obj) /\
  (k <= fst (snd (SimpleDecrease.iteration is_set k obj)))%nat /\
  (escalatorCount obj < 0 -> snd (snd (SimpleDecrease.iteration is_set k obj)) = O).
Proof.
  unfold SimpleDecrease.iteration.
  destruct (Z.geb_spec (escalatorCount obj) 0) as [H|H]; cbn [fst snd].
  - split; [|split; [apply wait_looks_ge | lia]].
    cbn. unfold with_count, escalatorCount. f_equal. lia.
  - split; [reflexivity|]. split; [lia | reflexivity].
Qed.

(** X7. When [run] of the decay thread returns, running alone, the object is
    as it was if the stop event was set at the first look and has a count of
    0 otherwise, its other attributes untouched; but a count below 0 is left
    as it is, and the thread then turns without ever sleeping. *)
Theorem decay_run_result (is_set : nat -> bool) (fuel k looks slept : nat)
        (obj final : t) :
  SimpleDecrease.run is_set fuel k obj = Some (final, (looks, slept)) ->
  final = (if is_set k then obj
           else if escalatorCount obj >=? 0 then with_count obj 0 else obj) /\
  (escalatorCount obj < 0 -> slept = O).
Proof.
  revert k looks slept obj final.
  induction fuel as [|fuel IH]; intros k looks slept obj final; cbn; [discriminate|].
  destruct (is_set k).
  - intros H. injection H as <- _ <-. auto.
  - pose proof (decay_iteration is_set (S k) obj) as (Hobj & _ & Hslept).
    destruct (SimpleDecrease.iteration is_set (S k) obj) as [obj' [k' slept1]].
    cbn [fst snd] in Hobj, Hslept.
    destruct (SimpleDecrease.run is_set fuel k' obj') as [[final' [k'' slept2]]|] eqn:E;
      [|discriminate].
    intros H. injection H as <- _ <-.
    apply IH in E. destruct E as [Hfinal Hslept2]. subst obj'.
    destruct (Z.geb_spec (escalatorCount obj) 0) as [Hc|Hc].
    + split; [|lia]. rewrite Hfinal.
      destruct (is_set k'); [reflexivity|]. reflexivity.
    + split.
      * rewrite Hfinal. destruct (is_set k'); [reflexivity|].
        destruct (Z.geb_spec (escalatorCount obj) 0); [lia | reflexivity].
      * intros _. rewrite Hslept, Hslept2 by lia. reflexivity.
Qed.

Lemma decay_run_result_witness :
  SimpleDecrease.run (set_from 2) 3 0 (seen 4 f97) = Some (seen 0 f97, (4%nat, 1%nat)) /\
  seen 0 f97 = with_count (seen 4 f97) 0.
Proof.
  assert (H : SimpleDecrease.run (set_from 2) 3 0 (seen 4 f97)
              = Some (seen 0 f97, (4%nat, 1%nat))) by reflexivity.
  split; [exact H|].
  exact (proj1 (decay_run_result _ _ _ _ _ _ _ H)).
Defined.

Lemma decay_run_S (is_set : nat -> bool) (fuel k : nat) (obj : t) :
  SimpleDecrease.run is_set (S fuel) k obj =
    if is_set k then Some (obj, (S k, O))
    else
      let '(obj', (k', slept)) := SimpleDecrease.iteration is_set (S k) obj in
      match SimpleDecrease.run is_set fuel k' obj' with
      | None => None
      | Some (final, (k'', slept')) => Some (final, (k'', (slept + slept')%nat))
      end.
Proof.
  reflexivity.
Qed.

(** X8. Once the stop event is set and stays set, [run] of the decay thread
    returns: from look [k], as many turns as there are looks left before the
    event is set, and one more, are enough. *)
Theorem decay_run_stops (is_set : nat -> bool) (K fuel k : nat) (obj : t) :
  (forall k', (K <= k')%nat -> is_set k' = true) ->
  (K <= k + fuel)%nat ->
  exists r, SimpleDecrease.run is_set (S fuel) k obj = Some r.
Proof.
  intros Hset. revert k obj. induction fuel as [|fuel IH]; intros k obj Hfuel.
  - cbn. rewrite Hset by lia. eauto.
  - rewrite decay_run_S. destruct (is_set k) eqn:Ek; [eauto|].
    assert (k < K)%nat.
    { destruct (Nat.lt_ge_cases k K) as [|Hge]; [assumption|].
      rewrite Hset in Ek by exact Hge. discriminate. }
    pose proof (decay_iteration is_set (S k) obj) as (_ & Hk & _).
    destruct (SimpleDecrease.iteration is_set (S k) obj) as [obj' [k' slept1]].
    cbn [fst snd] in Hk.
    destruct (IH k' obj') as [[final [k'' slept2]] ->]; [lia|]. eauto.
Qed.

Lemma decay_run_stops_witness :
  (forall k', (2 <= k')%nat -> set_from 2 k' = true) /\
  exists r, SimpleDecrease.run (set_from 2) 3 0 (seen 4 f97) = Some r.
Proof.
  assert (H : forall k', (2 <= k')%nat -> set_from 2 k' = true).
  { intros k' Hk. unfold set_from. apply Nat.leb_le. exact Hk. }
  split; [exact H|].
  refine (decay_run_stops (set_from 2) 2 2 0 (seen 4 f97) H _). lia.
Defined.

(** ** The distance, on every argument *)

Lemma calculateDistance_int (z : Z) :
  ThreadedLoop.calculateDistance (PyInt z)
    = (g <- int_to_float z ;; ThreadedLoop.calculateDistance (PyFloat g))%py.
Proof.
  unfold ThreadedLoop.calculateDistance. cbn [is_None].
  rewrite (proj1 half_speed_eq). cbn [rbind py_mul].
  destruct (int_to_float z); reflexivity.
Qed.

Lemma int_to_float_cases (z : Z) :
  (F64.is_infinity (F64.of_Z z) = true /\ int_to_float z = Raise OverflowError) \/
  (F64.is_infinity (F64.of_Z z) = false /\ int_to_float z = Ok (F64.of_Z z)).
Proof.
  unfold int_to_float. destruct (F64.of_Z z); cbn; auto.
Qed.

(** X9. [calculateDistance] returns a float on a float and on an int that a
    float can hold, and raises otherwise: ValueError exactly on None,
    TypeError exactly on a str, OverflowError exactly on an int beyond the
    largest float. *)
Theorem calculateDistance_errors (v : pyval) :
  (ThreadedLoop.calculateDistance v = Raise ValueError <-> v = PyNone) /\
  (ThreadedLoop.calculateDistance v = Raise TypeError <-> exists s, v = PyStr s) /\
  (ThreadedLoop.calculateDistance v = Raise OverflowError
   <-> exists z, v = PyInt z /\ F64.is_infinity (F64.of_Z z) = true) /\
  ((exists r, ThreadedLoop.calculateDistance v = Ok (PyFloat r))
   <-> type_is_float v = true \/
       exists z, v = PyInt z /\ F64.is_infinity (F64.of_Z z) = false).
Proof.
  destruct v as [|z|f|s].
  - change (ThreadedLoop.calculateDistance PyNone) with (@Raise pyval ValueError).
    repeat split; try discriminate; try reflexivity.
    + intros [s H]. discriminate.
    + intros (z & H & _). discriminate.
    + intros [r H]. discriminate.
    + intros [H | (z & H & _)]; discriminate.
  - rewrite calculateDistance_int.
    destruct (int_to_float_cases z) as [[Hinf ->] | [Hfin ->]]; cbn [rbind].
    + repeat split; try discriminate; try reflexivity; eauto.
      * intros [s H]. discriminate.
      * intros [r H]. discriminate.
      * intros [H | (z' & H & H')]; [discriminate|].
        injection H as <-. congruence.
    + rewrite calculateDistance_float.
      repeat split; try discriminate; eauto.
      * intros [s H]. discriminate.
      * intros (z' & H & H'). injection H as <-. congruence.
  - rewrite calculateDistance_float.
    repeat split; try discriminate; eauto.
    + intros [s H]. discriminate.
    + intros (z & H & _). discriminate.
  - assert (H : ThreadedLoop.calculateDistance (PyStr s) = Raise TypeError).
    { unfold ThreadedLoop.calculateDistance. cbn [is_None].
      rewrite (proj1 half_speed_eq). reflexivity. }
    rewrite H.
    repeat split; try discriminate; eauto.
    + intros (z & H' & _). discriminate.
    + intros [r H']. discriminate.
    + intros [H' | (z & H' & _)]; discriminate.
Qed.

Lemma binary_round_aux_sign (s : bool) (mx ex : Z) (lx : location) :
  0 <= mx ->
  sign_bit (SpecFloat.binary_round_aux F64.prec F64.emax s mx ex lx) = Some s.
Proof.
  intros Hmx. unfold SpecFloat.binary_round_aux.
  pose proof (shr_fexp_spec mx ex lx Hmx) as [He1 Hm1].
  destruct (SpecFloat.shr_fexp F64.prec F64.emax mx ex lx) as [mrs1 e1].
  cbn [fst snd] in He1, Hm1.
  set (m1 := round_nearest_even (shr_m mrs1) (loc_of_shr_record mrs1)).
  assert (H0 : 0 <= shr_m mrs1).
  { rewrite Hm1. apply Z.div_pos; [lia|]. apply Z.pow_pos_nonneg; lia. }
  assert (H1 : 0 <= m1).
  { pose proof (round_nearest_even_bounds _ (loc_of_shr_record mrs1) H0).
    subst m1. lia. }
  pose proof (shr_fexp_spec m1 e1 loc_Exact H1) as [He2 Hm2].
  destruct (SpecFloat.shr_fexp F64.prec F64.emax m1 e1 loc_Exact) as [mrs2 e2].
  cbn [fst snd] in He2, Hm2.
  assert (H2 : 0 <= shr_m mrs2).
  { rewrite Hm2. apply Z.div_pos; [lia|]. apply Z.pow_pos_nonneg; lia. }
  destruct (shr_m mrs2); [reflexivity | | lia].
  destruct (e2 <=? F64.emax - F64.prec); reflexivity.
Qed.

Lemma float_of_decimal_sign (s : bool) (k : Z) :
  sign_bit (float_of_decimal s k 2) = Some s.
Proof.
  unfold float_of_decimal. destruct k as [|P|P]; try reflexivity.
  change (0 <=? 2) with true. cbv iota.
  change (Z.to_pos (10 ^ 2)) with 100%positive.
  unfold F64.div, SFdiv. rewrite xorb_false_r.
  destruct (div_core_100 P) as (sh & q & r & lz & -> & Hsh & Heq & Hr & _).
  apply binary_round_aux_sign.
  assert (0 < 2 ^ sh) by (apply Z.pow_pos_nonneg; lia). nia.
Qed.

(** X10. The distance has the sign of the duration, zero included, and is a
    NaN only for a NaN: a pulse that ends before it starts never gives a
    distance above 0. *)
Theorem calculateDistance_sign (pulseDuration : spec_float) :
  exists distance,
    ThreadedLoop.calculateDistance (PyFloat pulseDuration) = Ok (PyFloat distance) /\
    sign_bit distance = sign_bit pulseDuration /\
    (sign_bit pulseDuration = Some true -> SFltb (S754_zero false) distance = false).
Proof.
  rewrite calculateDistance_float. eexists. split; [reflexivity|].
  assert (Hhalf : half_speed = S754_finite false 4714156104089600 (-38))
    by (vm_compute; reflexivity).
  assert (Hmul : sign_bit (F64.mul half_speed pulseDuration) = sign_bit pulseDuration).
  { rewrite Hhalf. unfold F64.mul.
    destruct pulseDuration as [s|s| |s m e]; cbn [SFmul xorb sign_bit]; try reflexivity.
    apply binary_round_aux_sign. lia. }
  assert (Hsign :
    sign_bit match F64.mul half_speed pulseDuration with
             | S754_finite s m e => float_of_decimal s (decimal_digits m e 2) 2
             | x => x
             end = sign_bit pulseDuration).
  { rewrite <- Hmul.
    destruct (F64.mul half_speed pulseDuration) as [s|s| |s m e]; try reflexivity.
    apply float_of_decimal_sign. }
  split; [exact Hsign|].
  intros Hneg. rewrite Hneg in Hsign.
  destruct (match F64.mul half_speed pulseDuration with
            | S754_finite s m e => float_of_decimal s (decimal_digits m e 2) 2
            | x => x
            end) as [s|s| |s m e]; cbn in Hsign |- *; try discriminate;
    injection Hsign as ->; reflexivity.
Qed.

Lemma calculateDistance_sign_witness :
  sign_bit (F64.of_Z (-1)) = Some true /\
  exists distance,
    ThreadedLoop.calculateDistance (PyFloat (F64.of_Z (-1))) = Ok (PyFloat distance) /\
    SFltb (S754_zero false) distance = false.
Proof.
  split; [reflexivity|].
  destruct (calculateDistance_sign (F64.of_Z (-1))) as (distance & Hd & _ & Hneg).
  exists distance. split; [exact Hd | exact (Hneg eq_refl)].
Defined.

(** ** The turns of the sensor thread *)

Lemma poll_first (hw : ThreadedLoop.gpio) (level : bool) (fuel i n : nat)
      (stamp : option pyval) :
  (n <= i)%nat ->
  (forall k, (n <= k)%nat -> (k < i)%nat -> ThreadedLoop.echo hw k = level) ->
  ThreadedLoop.echo hw i = negb level ->
  (i - n < fuel)%nat ->
  ThreadedLoop.poll hw level fuel n stamp
    = Some (S i, if Nat.eqb i n then stamp
                 else Some (PyFloat (ThreadedLoop.time hw i))).
Proof.
  revert n stamp. induction fuel as [|fuel IH]; intros n stamp Hle Hlow Hi Hfuel; [lia|].
  cbn [ThreadedLoop.poll]. destruct (Nat.eq_dec i n) as [->|Hne].
  - rewrite Hi, Nat.eqb_refl. destruct level; reflexivity.
  - rewrite (Hlow n) by lia. rewrite Bool.eqb_reflx.
    rewrite IH; try lia; [| intros k Hk1 Hk2; apply Hlow; lia | exact Hi].
    f_equal. f_equal.
    destruct (Nat.eqb_spec i n) as [|_]; [contradiction|].
    destruct (Nat.eqb_spec i (S n)) as [->|_]; reflexivity.
Qed.

Lemma poll_forever (hw : ThreadedLoop.gpio) (level : bool) (fuel n : nat)
      (stamp : option pyval) :
  (forall k, (n <= k)%nat -> ThreadedLoop.echo hw k = level) ->
  ThreadedLoop.poll hw level fuel n stamp = None.
Proof.
  revert n stamp. induction fuel as [|fuel IH]; intros n stamp H; [reflexivity|].
  cbn [ThreadedLoop.poll]. rewrite (H n) by lia. rewrite Bool.eqb_reflx.
  apply IH. intros k Hk. apply H. lia.
Qed.

Lemma poll_bound (hw : ThreadedLoop.gpio) (level : bool) (fuel n n' : nat)
      (stamp stamp' : option pyval) :
  ThreadedLoop.poll hw level fuel n stamp = Some (n', stamp') ->
  bound_float stamp = true -> bound_float stamp' = true.
Proof.
  revert n stamp. induction fuel as [|fuel IH]; intros n stamp; cbn; [discriminate|].
  destruct (Bool.eqb (ThreadedLoop.echo hw n) level).
  - intros H _. apply IH in H; [exact H | reflexivity].
  - intros H. injection H as _ <-. auto.
Qed.

(** A turn on a pulse, with the two polling loops resolved. *)
Lemma iteration_at (hw : ThreadedLoop.gpio) (fuel i j : nat) (self : ThreadedLoop.t) :
  pulse_at hw (ThreadedLoop.reads self) i j ->
  (j < fuel)%nat ->
  let ps := if Nat.eqb i (ThreadedLoop.reads self) then ThreadedLoop.pulse_start self
            else Some (PyFloat (ThreadedLoop.time hw i)) in
  let pe := if Nat.eqb j (S i) then ThreadedLoop.pulse_end self
            else Some (PyFloat (ThreadedLoop.time hw j)) in
  ThreadedLoop.iteration hw fuel self
    = Some (a <- ThreadedLoop.load ps ;;
            b <- ThreadedLoop.load pe ;;
            duration <- ThreadedLoop.calculate_pulse_duration a b ;;
            distance <- ThreadedLoop.calculateDistance duration ;;
            Ok (ThreadedLoop.Build distance ps pe (S j)
                  (ThreadedLoop.trig_out self ++ [false; true; false])))%py.
Proof.
  intros (Hni & Hij & Hlow & Hup & Hhigh & Hdown) Hfuel. cbv zeta.
  unfold ThreadedLoop.iteration.
  cbn [ThreadedLoop.makePulse ThreadedLoop.reads ThreadedLoop.pulse_start
       ThreadedLoop.pulse_end ThreadedLoop.trig_out].
  rewrite (poll_first hw false fuel i (ThreadedLoop.reads self)); try assumption;
    [| lia].
  rewrite (poll_first hw true fuel j (S i)); try assumption; try lia.
  reflexivity.
Qed.

(** X11. A turn of the sensor thread on a pulse stamps the start with the
    clock just before the read that first finds ECHO high, and the end with
    the clock just before the read that first finds it low again, and
    publishes the distance of their difference. When ECHO is already high at
    the first read of the turn no start is stamped, and when it is low again
    at the read after the rise no end is: the turn then takes the stamp a
    turn before left in the local, whatever its age. *)
Theorem iteration_measures (hw : ThreadedLoop.gpio) (fuel i j : nat)
        (self : ThreadedLoop.t) (old : spec_float) :
  pulse_at hw (ThreadedLoop.reads self) i j ->
  (j < fuel)%nat ->
  let out := ThreadedLoop.trig_out self ++ [false; true; false] in
  let t_i := ThreadedLoop.time hw i in
  let t_j := ThreadedLoop.time hw j in
  ((ThreadedLoop.reads self < i)%nat -> (S i < j)%nat ->
   exists distance,
     ThreadedLoop.calculateDistance (PyFloat (F64.sub t_j t_i)) = Ok (PyFloat distance) /\
     ThreadedLoop.iteration hw fuel self
       = Some (Ok (ThreadedLoop.Build (PyFloat distance) (Some (PyFloat t_i))
                     (Some (PyFloat t_j)) (S j) out))) /\
  (i = ThreadedLoop.reads self -> (S i < j)%nat ->
   ThreadedLoop.pulse_start self = Some (PyFloat old) ->
   exists distance,
     ThreadedLoop.calculateDistance (PyFloat (F64.sub t_j old)) = Ok (PyFloat distance) /\
     ThreadedLoop.iteration hw fuel self
       = Some (Ok (ThreadedLoop.Build (PyFloat distance) (Some (PyFloat old))
                     (Some (PyFloat t_j)) (S j) out))) /\
  ((ThreadedLoop.reads self < i)%nat -> j = S i ->
   ThreadedLoop.pulse_end self = Some (PyFloat old) ->
   exists distance,
     ThreadedLoop.calculateDistance (PyFloat (F64.sub old t_i)) = Ok (PyFloat distance) /\
     ThreadedLoop.iteration hw fuel self
       = Some (Ok (ThreadedLoop.Build (PyFloat distance) (Some (PyFloat t_i))
                     (Some (PyFloat old)) (S j) out))).
Proof.
  intros Hp Hfuel. cbv zeta. rewrite (iteration_at hw fuel i j self Hp Hfuel).
  split; [|split].
  - intros Hi Hj.
    destruct (Nat.eqb_spec i (ThreadedLoop.reads self)) as [|_]; [lia|].
    destruct (Nat.eqb_spec j (S i)) as [|_]; [lia|].
    cbn [ThreadedLoop.load rbind ThreadedLoop.calculate_pulse_duration is_None orb py_sub].
    rewrite calculateDistance_float. eexists. split; reflexivity.
  - intros Hi Hj Hold.
    destruct (Nat.eqb_spec i (ThreadedLoop.reads self)) as [_|]; [|contradiction].
    destruct (Nat.eqb_spec j (S i)) as [|_]; [lia|]. rewrite Hold.
    cbn [ThreadedLoop.load rbind ThreadedLoop.calculate_pulse_duration is_None orb py_sub].
    rewrite calculateDistance_float. eexists. split; reflexivity.
  - intros Hi Hj Hold.
    destruct (Nat.eqb_spec i (ThreadedLoop.reads self)) as [|_]; [lia|].
    destruct (Nat.eqb_spec j (S i)) as [_|]; [|contradiction]. rewrite Hold.
    cbn [ThreadedLoop.load rbind ThreadedLoop.calculate_pulse_duration is_None orb py_sub].
    rewrite calculateDistance_float. eexists. split; reflexivity.
Qed.

Lemma one_pulse_at : pulse_at one_pulse 0 3 10.
Proof.
  unfold pulse_at. cbn [one_pulse ThreadedLoop.echo].
  split; [lia|]. split; [lia|].
  split; [|split; [reflexivity | split; [|reflexivity]]].
  - intros k _ Hk. destruct (Nat.leb_spec 3 k); [lia | reflexivity].
  - intros k Hk1 Hk2. destruct (Nat.leb_spec 3 k); [|lia].
    destruct (Nat.ltb_spec k 10); [reflexivity | lia].
Qed.

Lemma iteration_measures_witness :
  pulse_at one_pulse (ThreadedLoop.reads ThreadedLoop.__init__) 3 10 /\
  exists distance,
    ThreadedLoop.iteration one_pulse 11 ThreadedLoop.__init__
      = Some (Ok (ThreadedLoop.Build (PyFloat distance)
                    (Some (PyFloat (F64.of_Z 3))) (Some (PyFloat (F64.of_Z 10)))
                    11 [false; true; false])).
Proof.
  split; [exact one_pulse_at|].
  destruct (proj1 (iteration_measures one_pulse 11 3 10 ThreadedLoop.__init__
                     (S754_zero false) one_pulse_at ltac:(lia))
              ltac:(cbn; lia) ltac:(lia)) as (distance & _ & H).
  exists distance. exact H.
Defined.

(** X12. A turn that starts with both locals unbound, as the first one does,
    raises UnboundLocalError exactly when ECHO is already high at its first
    read or low again at the read after the rise; on any other pulse it
    returns. *)
Theorem first_turn_unbound (hw : ThreadedLoop.gpio) (fuel i j : nat)
        (self : ThreadedLoop.t) :
  pulse_at hw (ThreadedLoop.reads self) i j ->
  (j < fuel)%nat ->
  ThreadedLoop.pulse_start self = None ->
  ThreadedLoop.pulse_end self = None ->
  (ThreadedLoop.iteration hw fuel self = Some (Raise UnboundLocalError)
   <-> i = ThreadedLoop.reads self \/ j = S i) /\
  ((exists self', ThreadedLoop.iteration hw fuel self = Some (Ok self'))
   <-> (ThreadedLoop.reads self < i)%nat /\ (S i < j)%nat).
Proof.
  intros Hp Hfuel Hs He. rewrite (iteration_at hw fuel i j self Hp Hfuel).
  destruct Hp as (Hni & Hij & _). rewrite Hs, He.
  destruct (Nat.eqb_spec i (ThreadedLoop.reads self)) as [Hi|Hi].
  - cbn [ThreadedLoop.load rbind]. split; split; try tauto; try lia.
    intros [self' H]. discriminate.
  - destruct (Nat.eqb_spec j (S i)) as [Hj|Hj].
    + cbn [ThreadedLoop.load rbind]. split; split; try tauto; try lia.
      intros [self' H]. discriminate.
    + cbn [ThreadedLoop.load rbind ThreadedLoop.calculate_pulse_duration
           is_None orb py_sub].
      rewrite calculateDistance_float. cbn [rbind]. split; split.
      * discriminate.
      * intros [H | H]; contradiction.
      * intros _. lia.
      * intros _. eauto.
Qed.

Lemma first_turn_unbound_witness :
  pulse_at one_pulse (ThreadedLoop.reads ThreadedLoop.__init__) 3 10 /\
  exists self', ThreadedLoop.iteration one_pulse 11 ThreadedLoop.__init__
                = Some (Ok self').
Proof.
  split; [exact one_pulse_at|].
  refine (proj2 (proj2 (first_turn_unbound one_pulse 11 3 10 ThreadedLoop.__init__
                          one_pulse_at _ eq_refl eq_refl)) _).
  - lia.
  - cbn. lia.
Defined.

Lemma iteration_bound (hw : ThreadedLoop.gpio) (fuel : nat) (self : ThreadedLoop.t)
      (out : result ThreadedLoop.t) :
  bound_float (ThreadedLoop.pulse_start self) = true ->
  bound_float (ThreadedLoop.pulse_end self) = true ->
  ThreadedLoop.iteration hw fuel self = Some out ->
  exists self',
    out = Ok self' /\
    type_is_float (ThreadedLoop._current_distance self') = true /\
    bound_float (ThreadedLoop.pulse_start self') = true /\
    bound_float (ThreadedLoop.pulse_end self') = true.
Proof.
  intros Hs He. unfold ThreadedLoop.iteration.
  cbn [ThreadedLoop.makePulse ThreadedLoop.reads ThreadedLoop.pulse_start
       ThreadedLoop.pulse_end ThreadedLoop.trig_out].
  destruct (ThreadedLoop.poll hw false fuel (ThreadedLoop.reads self)
              (ThreadedLoop.pulse_start self)) as [[n1 ps]|] eqn:H1; [|discriminate].
  destruct (ThreadedLoop.poll hw true fuel n1 (ThreadedLoop.pulse_end self))
    as [[n2 pe]|] eqn:H2; [|discriminate].
  apply poll_bound in H1; [|exact Hs]. apply poll_bound in H2; [|exact He].
  intros H. injection H as <-.
  destruct ps as [[| |a|]|]; try discriminate.
  destruct pe as [[| |b|]|]; try discriminate.
  cbn [ThreadedLoop.load rbind ThreadedLoop.calculate_pulse_duration is_None orb py_sub].
  rewrite calculateDistance_float. cbn [rbind].
  eexists. split; [reflexivity|]. cbn. auto.
Qed.

(** X13. Once both locals of [run] hold a stamp the sensor thread cannot
    raise any more: every turn that ends publishes a float, and [run], when
    it returns, returns normally. Only a turn that finds a local unbound can
    end the thread. *)
Theorem run_never_raises (hw : ThreadedLoop.gpio) (is_set : nat -> bool)
        (turns fuel k : nat) (self : ThreadedLoop.t) (out : result ThreadedLoop.t) :
  bound_float (ThreadedLoop.pulse_start self) = true ->
  bound_float (ThreadedLoop.pulse_end self) = true ->
  (ThreadedLoop.iteration hw fuel self = Some out ->
   exists self', out = Ok self' /\
                 type_is_float (ThreadedLoop._current_distance self') = true) /\
  (ThreadedLoop.run hw is_set turns fuel k self = Some out ->
   exists self', out = Ok self').
Proof.
  intros Hs He. split.
  - intros H. destruct (iteration_bound hw fuel self out Hs He H)
      as (self' & -> & Hd & _). eauto.
  - revert k self Hs He. induction turns as [|turns IH]; intros k self Hs He;
      cbn [ThreadedLoop.run]; [discriminate|].
    destruct (is_set k).
    + intros H. injection H as <-. eauto.
    + destruct (ThreadedLoop.iteration hw fuel self) as [o|] eqn:E; [|discriminate].
      destruct (iteration_bound hw fuel self o Hs He E) as (self' & -> & _ & Hs' & He').
      apply IH; assumption.
Qed.

Lemma run_never_raises_witness :
  bound_float (ThreadedLoop.pulse_start (has_measured (F64.of_Z 1) (F64.of_Z 2))) = true /\
  bound_float (ThreadedLoop.pulse_end (has_measured (F64.of_Z 1) (F64.of_Z 2))) = true /\
  exists out self',
    ThreadedLoop.run one_pulse (set_from 1) 2 11 0
      (has_measured (F64.of_Z 1) (F64.of_Z 2)) = Some out /\
    out = Ok self'.
Proof.
  split; [reflexivity|]. split; [reflexivity|].
  destruct (ThreadedLoop.run one_pulse (set_from 1) 2 11 0
              (has_measured (F64.of_Z 1) (F64.of_Z 2))) as [out|] eqn:E.
  - destruct (proj2 (run_never_raises one_pulse (set_from 1) 2 11 0
                       (has_measured (F64.of_Z 1) (F64.of_Z 2)) out eq_refl eq_refl) E)
      as [self' H].
    exists out, self'. split; [reflexivity | exact H].
  - exfalso. vm_compute in E. discriminate.
Defined.

Lemma well_formed_iteration (hw : ThreadedLoop.gpio) (fuel : nat)
      (self : ThreadedLoop.t) (out : result ThreadedLoop.t) :
  well_formed self ->
  ThreadedLoop.iteration hw fuel self = Some out ->
  out = Raise UnboundLocalError \/
  exists self', out = Ok self' /\ well_formed self' /\
                type_is_float (ThreadedLoop._current_distance self') = true.
Proof.
  intros (_ & Hs & He) H.
  destruct (iteration_outcome hw fuel self out Hs He H)
    as [-> | (self' & distance & -> & Hd & Hs' & He')]; [auto|].
  right. exists self'. unfold well_formed. rewrite Hd. cbn. auto.
Qed.

(** X14. From the state the constructor builds on, [run] of the sensor thread
    ends in no other way than by returning or by UnboundLocalError; when it
    returns, the published distance is None or a float, and it is a float if
    it was one before: a published distance never goes back to None. *)
Theorem run_publishes (hw : ThreadedLoop.gpio) (is_set : nat -> bool)
        (turns fuel k : nat) (self : ThreadedLoop.t) (out : result ThreadedLoop.t) :
  well_formed self ->
  ThreadedLoop.run hw is_set turns fuel k self = Some out ->
  out = Raise UnboundLocalError \/
  exists self',
    out = Ok self' /\ well_formed self' /\
    (type_is_float (ThreadedLoop._current_distance self) = true ->
     type_is_float (ThreadedLoop._current_distance self') = true).
Proof.
  revert k self. induction turns as [|turns IH]; intros k self Hwf;
    cbn [ThreadedLoop.run]; [discriminate|].
  destruct (is_set k).
  - intros H. injection H as <-. right. exists self. auto.
  - destruct (ThreadedLoop.iteration hw fuel self) as [o|] eqn:E; [|discriminate].
    destruct (well_formed_iteration hw fuel self o Hwf E)
      as [-> | (self1 & -> & Hwf1 & Hd1)].
    + intros H. injection H as <-. auto.
    + intros H. destruct (IH (S k) self1 Hwf1 H) as [-> | (self' & -> & Hwf' & Hd')];
        [auto|].
      right. exists self'. auto.
Qed.

Lemma run_publishes_witness :
  well_formed ThreadedLoop.__init__ /\
  exists out,
    ThreadedLoop.run one_pulse (set_from 1) 2 11 0 ThreadedLoop.__init__ = Some out /\
    (out = Raise UnboundLocalError \/ exists self', out = Ok self').
Proof.
  assert (Hwf : well_formed ThreadedLoop.__init__) by (repeat split).
  split; [exact Hwf|].
  destruct (ThreadedLoop.run one_pulse (set_from 1) 2 11 0 ThreadedLoop.__init__)
    as [out|] eqn:E.
  - exists out. split; [reflexivity|].
    destruct (run_publishes one_pulse (set_from 1) 2 11 0 ThreadedLoop.__init__ out Hwf E)
      as [-> | (self' & -> & _)]; [auto | eauto].
  - exfalso. vm_compute in E. discriminate.
Defined.

(** X15. The sensor thread looks at its stop event between two turns only.
    If the event is clear at a look and ECHO then stays low, or rises and
    then stays high, the turn never ends and [run] never returns, whatever
    the event does afterwards. *)
Theorem run_blocked (hw : ThreadedLoop.gpio) (is_set : nat -> bool)
        (turns fuel k i : nat) (self : ThreadedLoop.t) :
  is_set k = false ->
  (forall n, (ThreadedLoop.reads self <= n)%nat -> ThreadedLoop.echo hw n = false) \/
  ((ThreadedLoop.reads self <= i)%nat /\
   (forall n, (ThreadedLoop.reads self <= n)%nat -> (n < i)%nat ->
              ThreadedLoop.echo hw n = false) /\
   (forall n, (i <= n)%nat -> ThreadedLoop.echo hw n = true)) ->
  ThreadedLoop.run hw is_set turns fuel k self = None.
Proof.
  intros Hk Hecho. destruct turns as [|turns]; [reflexivity|].
  cbn [ThreadedLoop.run]. rewrite Hk.
  enough (H : ThreadedLoop.iteration hw fuel self = None) by (rewrite H; reflexivity).
  unfold ThreadedLoop.iteration.
  cbn [ThreadedLoop.makePulse ThreadedLoop.reads ThreadedLoop.pulse_start
       ThreadedLoop.pulse_end].
  destruct Hecho as [Hlow | (Hi & Hlow & Hhigh)].
  - rewrite poll_forever by exact Hlow. reflexivity.
  - destruct (ThreadedLoop.poll hw false fuel (ThreadedLoop.reads self)
                (ThreadedLoop.pulse_start self)) as [[n1 ps]|] eqn:H1; [|reflexivity].
    assert (Hn1 : (i < n1)%nat).
    { apply poll_exit in H1. destruct H1 as [Hlt Hup]. cbn [negb] in Hup.
      destruct (Nat.lt_ge_cases (n1 - 1) i) as [Hc|Hc]; [|lia].
      rewrite Hlow in Hup by lia. discriminate. }
    rewrite poll_forever; [reflexivity|].
    intros n Hn. apply Hhigh. lia.
Qed.

Lemma run_blocked_witness :
  set_from 1 0 = false /\
  ThreadedLoop.run stuck_low (set_from 1) 5 100 0 ThreadedLoop.__init__ = None.
Proof.
  split; [reflexivity|].
  refine (run_blocked stuck_low (set_from 1) 5 100 0 0 ThreadedLoop.__init__
            eq_refl (or_introl _)).
  intros n _. reflexivity.
Defined.

(** ** A measurement published in the middle of a turn *)

(** X16. A turn of the main loop compares the first value it reads and
    records the last one. When the sensor thread publishes a new float [f]
    in between, and the value compared did not qualify, [f] is recorded
    without ever having been compared, and the next turn, which compares
    [f] with itself, counts nobody either: a drop that would have qualified
    is lost. *)
Theorem published_between_reads (d1 d2 d3 : pyval) (f : spec_float) (s : t) :
  sensor_value d1 = true ->
  is_None d3 = false ->
  _lastMeasurement s = PyInt 0 \/ type_is_float (_lastMeasurement s) = true ->
  qualifies (_lastMeasurement s) d1 <> Ok true ->
  let s1 := Build (_status s) (escalatorCount s) (PyFloat f) in
  snd (MainLoop.body d1 d2 d3 (PyFloat f) s) = s1 /\
  snd (MainLoop.iteration (PyFloat f) s1) = s1.
Proof.
  intros H1 H3 Hl Hq. cbv zeta. split.
  - rewrite body_state.
    assert (Hc : compareAndIncrease d1 s = (Ok tt, s)).
    { rewrite compareAndIncrease_unfold.
      destruct (sensor_value_cases d1 H1) as [-> | [g ->]]; [reflexivity|].
      cbn [is_None]. rewrite detects_qualifies.
      destruct (detects_returns _ (PyFloat g) eq_refl Hl) as [b Hb].
      rewrite detects_qualifies in Hb. rewrite Hb in Hq |- *.
      destruct b; [contradiction | reflexivity]. }
    rewrite Hc. cbn [fst snd]. rewrite H3. reflexivity.
  - rewrite (iteration_float f false).
    + reflexivity.
    + cbn [_lastMeasurement]. apply detects_false_when. left. reflexivity.
Qed.

Lemma published_between_reads_witness :
  qualifies f100 f100 <> Ok true /\
  qualifies f100 f97 = Ok true /\
  snd (MainLoop.body f100 f100 f97 f97 (seen 0 f100)) = seen 0 f97 /\
  snd (MainLoop.iteration f97 (seen 0 f97)) = seen 0 f97.
Proof.
  assert (Hq : qualifies f100 f100 <> Ok true) by (vm_compute; discriminate).
  split; [exact Hq|]. split; [reflexivity|].
  exact (published_between_reads f100 f100 f97 (F64.of_Z 97) (seen 0 f100)
           eq_refl eq_refl (or_intror eq_refl) Hq).
Defined.
